(** * The streaming chat hook [useChat] (frontend/src/hooks/useChat.js)

    A shallow embedding of the state the hook owns and of the handlers that
    change it: the WebSocket listener, the SSE fallback callbacks, the stop
    button, and the send handler with its history window.

    React state ([useState]) and refs ([useRef]) are one explicit record that
    every handler takes and returns.  A functional updater passed to
    [setMessages] is applied where the handler calls it. *)

From Stdlib Require Import String Ascii List Bool Arith ZArith Lia Sorted Permutation.
From Stdlib Require Import DecimalString DecimalNat.
From stdpp Require Import base list strings.

Local Open Scope string_scope.

(** ** JavaScript values the hook relies on *)

(** The line feed of the JS literal ["\n"]. *)
Definition nl : string := String "010"%char EmptyString.

(** Truthiness of a string: only the empty string is falsy. *)
Definition truthy (s : string) : bool := negb (s =? "").

(** A property that may be [undefined] ([None]) or hold a string. *)
Definition jsstring := option string.

(** [v || ""]. *)
Definition or_empty (v : jsstring) : string :=
  match v with
  | Some s => s
  | None => ""
  end.

(** [v + s] where [s] is a string: [undefined] is printed as "undefined". *)
Definition js_concat (v : jsstring) (s : string) : string :=
  match v with
  | Some a => a +:+ s
  | None => "undefined" +:+ s
  end.

(** [s.includes(sub)] *)
Fixpoint includes (s sub : string) : bool :=
  String.prefix sub s ||
  match s with
  | EmptyString => false
  | String _ s' => includes s' sub
  end.

(** [v?.includes(sub)] used as a condition: [undefined] is falsy. *)
Definition opt_includes (v : jsstring) (sub : string) : bool :=
  match v with
  | Some s => includes s sub
  | None => false
  end.

(** Length of a content value as the UI sees it; [undefined] shows nothing. *)
Definition content_length (v : jsstring) : nat :=
  match v with
  | Some s => String.length s
  | None => 0
  end.

(** [arr.findIndex(p)]; [None] stands for the result [-1]. *)
Fixpoint findIndex {A : Type} (p : A -> bool) (l : list A) : option nat :=
  match l with
  | [] => None
  | x :: l' => if p x then Some 0 else S <$> findIndex p l'
  end.

(** [arr.slice(-n)]: the last [n] elements, the whole array when shorter. *)
Definition slice_last {A : Type} (n : nat) (l : list A) : list A :=
  drop (length l - n) l.

(** ** Data model *)

Inductive MsgType := user | assistant.

(** A message object.  A flag that the code leaves out of an object literal is
    [undefined] there and read only in boolean position, hence [false].
    [timestamp], [sources], [thinkingProcess], [typingProgress],
    [performance_metrics], [model_info] and [errorDetails] are written by the
    handlers and never read by them; they are not part of the model. *)
Record Message := mkMessage {
  id : string;
  type : MsgType;
  content : jsstring;
  isLoading : bool;
  isStreaming : bool;
  isError : bool
}.

(** The hook's state: [messages], [inputValue] and [canSendMessage] are
    [useState] cells, [streamingMessageIdRef] is the ref's [current]
    ([None] is [null]). *)
Record ChatState := mkChat {
  messages : list Message;
  inputValue : string;
  canSendMessage : bool;
  streamingMessageIdRef : option string
}.

Definition setMessages (f : list Message -> list Message) (st : ChatState) : ChatState :=
  mkChat (f (messages st)) (inputValue st) (canSendMessage st) (streamingMessageIdRef st).

Definition setCanSendMessage (b : bool) (st : ChatState) : ChatState :=
  mkChat (messages st) (inputValue st) b (streamingMessageIdRef st).

Definition setInputValue (s : string) (st : ChatState) : ChatState :=
  mkChat (messages st) s (canSendMessage st) (streamingMessageIdRef st).

Definition setStreamingRef (r : option string) (st : ChatState) : ChatState :=
  mkChat (messages st) (inputValue st) (canSendMessage st) r.

(** [if (currentStreamingId)]: the id when the ref holds a truthy string. *)
Definition activeId (st : ChatState) : option string :=
  match streamingMessageIdRef st with
  | Some cid => if truthy cid then Some cid else None
  | None => None
  end.

(** The updater every handler passes to [setMessages]:
    [[
      const updatedMessages = [...prev];
      const i = updatedMessages.findIndex((msg) => msg.id === currentStreamingId);
      if (i !== -1) updatedMessages[i] = f(updatedMessages[i]);
      return updatedMessages;
    ]] *)
Definition updateStreaming (cid : string) (f : Message -> Message)
    (prev : list Message) : list Message :=
  match findIndex (fun msg => id msg =? cid) prev with
  | Some i =>
      match prev !! i with
      | Some m => <[i := f m]> prev
      | None => prev
      end
  | None => prev
  end.

(** The message a handler would update: the first one carrying the id. *)
Definition findMessage (cid : string) (l : list Message) : option Message :=
  match findIndex (fun msg => id msg =? cid) l with
  | Some i => l !! i
  | None => None
  end.

(** ** The WebSocket listener, [handleWebSocketMessage] *)

(** An inbound event after [JSON.parse(event.data)] and the [switch] on
    [data.type].  [WsMalformed] is an event whose parse throws (the [catch]
    only logs); [WsUnknown] reaches the [default] case. *)
Inductive WsFrame :=
| WsMalformed
| WsStreamStart
| WsProgress
| WsStreamChunk (chunk : string)
| WsStreamComplete (fullContent : jsstring)
| WsError (message : jsstring)
| WsUnknown.

Definition errGeneric : string :=
  "메시지 처리 중 오류가 발생했습니다. 다시 시도해주세요.".
Definition errAuth : string :=
  "인증이 만료되었습니다. 다시 로그인해주세요.".
Definition errTimeout : string :=
  "처리 시간이 초과되었습니다. 요청을 단순화하거나 잠시 후 다시 시도해주세요.".
Definition errRateLimit : string :=
  "요청 한도에 도달했습니다. 잠시 후 다시 시도해주세요.".

(** The [let errorContent = ...; if ... else if ...] chain of the error case. *)
Definition errorContent (message : jsstring) : string :=
  if opt_includes message "401" || opt_includes message "Unauthorized" then errAuth
  else if opt_includes message "timeout" || opt_includes message "시간 초과" then errTimeout
  else if opt_includes message "rate limit" || opt_includes message "제한" then errRateLimit
  else errGeneric.

Definition chunkUpdate (chunk : string) (m : Message) : Message :=
  mkMessage (id m) (type m) (Some (or_empty (content m) +:+ chunk)) true true (isError m).

Definition completeUpdate (fullContent : jsstring) (m : Message) : Message :=
  mkMessage (id m) (type m) fullContent false false (isError m).

Definition errorUpdate (message : jsstring) (m : Message) : Message :=
  mkMessage (id m) (type m) (Some (errorContent message)) false false true.

Definition handleWebSocketMessage (frame : WsFrame) (st : ChatState) : ChatState :=
  match frame with
  | WsMalformed => st
  | WsStreamStart => st
  | WsProgress => st
  | WsStreamChunk chunk =>
      match activeId st with
      | Some cid => setMessages (updateStreaming cid (chunkUpdate chunk)) st
      | None => st
      end
  | WsStreamComplete fullContent =>
      match activeId st with
      | Some cid =>
          setStreamingRef None
            (setMessages (updateStreaming cid (completeUpdate fullContent)) st)
      | None => st
      end
  | WsError message =>
      match activeId st with
      | Some cid =>
          setStreamingRef None
            (setMessages (updateStreaming cid (errorUpdate message)) st)
      | None => st
      end
  | WsUnknown => st
  end.

(** ** The SSE callbacks and the stop button *)

Definition responseUpdate (chunk : string) (m : Message) : Message :=
  mkMessage (id m) (type m) (Some (js_concat (content m) chunk)) true true (isError m).

(** [handleStreamingResponse(chunk)] *)
Definition handleStreamingResponse (chunk : string) (st : ChatState) : ChatState :=
  match activeId st with
  | None => st
  | Some cid => setMessages (updateStreaming cid (responseUpdate chunk)) st
  end.

Definition finishUpdate (result : string) (m : Message) : Message :=
  mkMessage (id m) (type m) (Some result) false false (isError m).

(** [handleStreamingComplete({ result })] *)
Definition handleStreamingComplete (result : string) (st : ChatState) : ChatState :=
  match activeId st with
  | None => st
  | Some cid =>
      setCanSendMessage true
        (setStreamingRef None
          (setMessages (updateStreaming cid (finishUpdate result)) st))
  end.

Definition cancelNotice : string := nl +:+ nl +:+ "[생성이 중단되었습니다]".

Definition stopUpdate (m : Message) : Message :=
  mkMessage (id m) (type m) (Some (js_concat (content m) cancelNotice))
    false false (isError m).

(** [handleStopGeneration()].  [currentWebSocketRef] and
    [currentExecutionIdRef] are never assigned anything but [null] in the
    hook, so their branches are dead. *)
Definition handleStopGeneration (st : ChatState) : ChatState :=
  setCanSendMessage true
    match activeId st with
    | Some cid =>
        setStreamingRef None (setMessages (updateStreaming cid stopUpdate) st)
    | None => st
    end.

(** [resetChat()] *)
Definition resetChat (st : ChatState) : ChatState := mkChat [] "" true None.

(** ** Sending a turn, [handleSendMessage] *)

(** ASCII white space.  [String.prototype.trim] also strips the non-ASCII
    Unicode spaces, which the model leaves in place. *)
Definition isSpace (c : ascii) : bool :=
  match nat_of_ascii c with
  | 9 | 10 | 11 | 12 | 13 | 32 => true
  | _ => false
  end.

Fixpoint trimStart (s : string) : string :=
  match s with
  | EmptyString => EmptyString
  | String c s' => if isSpace c then trimStart s' else s
  end.

Fixpoint trimEnd (s : string) : string :=
  match s with
  | EmptyString => EmptyString
  | String c s' =>
      let t := trimEnd s' in
      if isSpace c && (t =? "") then EmptyString else String c t
  end.

Definition trim (s : string) : string := trimEnd (trimStart s).

(** One entry of the history sent to the backend: [{ role, content }]. *)
Record HistoryEntry := mkEntry {
  role : string;
  entryContent : jsstring
}.

Definition toEntry (msg : Message) : HistoryEntry :=
  mkEntry (match type msg with user => "user" | assistant => "assistant" end)
          (content msg).

(** [allMessages.filter(...).map(...)] with [allMessages = [...messages, userMessage]]. *)
Definition chatHistory (msgs : list Message) (userMessage : Message) : list HistoryEntry :=
  map toEntry
    (List.filter
       (fun msg => negb (isLoading msg) && negb (isError msg) && negb (isStreaming msg))
       (msgs ++ [userMessage])%list).

Definition maxHistoryLength : nat := 50.

Definition trimmedChatHistory (msgs : list Message) (userMessage : Message)
  : list HistoryEntry :=
  slice_last maxHistoryLength (chatHistory msgs userMessage).

(** A prompt card after the [filter]/[map]/[filter]/[sort] pipeline. *)
Record PromptCard := mkCard {
  promptId : jsstring;
  title : string;
  prompt_text : string;
  tags : list string;
  stepOrder : nat
}.

(** The arguments of [wsStartStreaming(...)]. *)
Record WsRequest := mkWsRequest {
  wsUserInput : jsstring;
  wsHistory : list HistoryEntry;
  wsPromptCards : list PromptCard;
  wsModel : string;
  wsConversationId : option string;
  wsUserSub : option string
}.

(** What one call of the handler reads from outside the hook's own state:
    the two [Date.now()] readings (already printed), the socket status from
    [useWebSocket], the boolean [wsStartStreaming] returns, the prepared
    cards, the model, the conversation id and the signed-in user's id.
    Creating a conversation beforehand touches none of the hook's state. *)
Record TurnEnv := mkEnv {
  nowUser : string;
  nowStream : string;
  wsConnected : bool;
  wsSendOk : bool;
  activePromptCards : list PromptCard;
  selectedModel : string;
  conversationIdToUse : option string;
  userSub : option string
}.

(** How the handler gets as far as its [try] takes it: it returns at the
    guard, it returns after a successful socket send, or it throws.  Once the
    socket is out (not connected, or [wsStartStreaming] returned [false]) the
    next thing evaluated is the endpoint template, which reads [projectId];
    the hook neither declares nor receives nor imports that name, so the read
    raises a [ReferenceError] inside the [try], before [requestData] is
    built and before [fetch].  [tried] is the socket attempt made first, if
    any. *)
Inductive SendResult :=
| Rejected (st : ChatState)
| SentOverWs (st : ChatState) (req : WsRequest)
| FallbackThrew (st : ChatState) (tried : option WsRequest).

Definition resultState (r : SendResult) : ChatState :=
  match r with
  | Rejected st => st
  | SentOverWs st _ => st
  | FallbackThrew st _ => st
  end.

(** The history the handler hands to a transport: the argument of
    [wsStartStreaming], the only call that takes one. *)
Definition outboundHistory (r : SendResult) : option (list HistoryEntry) :=
  match r with
  | Rejected _ => None
  | SentOverWs _ req => Some (wsHistory req)
  | FallbackThrew _ tried => wsHistory <$> tried
  end.

Definition handleSendMessage (env : TurnEnv) (st : ChatState) : SendResult :=
  if negb (truthy (trim (inputValue st))) || negb (canSendMessage st) then Rejected st
  else
    let userMessage :=
      mkMessage ("user-" +:+ nowUser env) user (Some (trim (inputValue st)))
                false false false in
    let streamMsgId := "streaming-" +:+ nowStream env in
    let streamingMessage :=
      mkMessage streamMsgId assistant (Some "") true true false in
    let st' :=
      setInputValue ""
        (setMessages (fun prev => (prev ++ [userMessage; streamingMessage])%list)
          (setStreamingRef (Some streamMsgId)
            (setCanSendMessage false st))) in
    let history := trimmedChatHistory (messages st) userMessage in
    let wsReq :=
      mkWsRequest (content userMessage) history (activePromptCards env)
                  (selectedModel env) (conversationIdToUse env) (userSub env) in
    if wsConnected env then
      if wsSendOk env then SentOverWs st' wsReq
      else FallbackThrew st' (Some wsReq)
    else FallbackThrew st' None.

(** ** The SSE callbacks' caller and the [catch] block *)

(** The read loop that calls the two SSE callbacks sits behind the throw
    described above, and the callbacks are not handed out by the hook.  The
    body of the loop is kept as written, as the one place a frame of the
    pull transport would enter the state. *)

(** One line of the response body as the loop sees it: a line that does not
    start with ["data: "], a data line whose [JSON.parse] (or property read)
    throws, or a parsed event with its [result] property. *)
Inductive SseLine :=
| SseOther
| SseBadJson
| SseData (result : jsstring).

(** The loop's local [fullResponse] next to the hook's state. *)
Record SseLoop := mkLoop {
  fullResponse : string;
  chat : ChatState
}.

(** The body of [for (const line of lines)]. *)
Definition sseLine (s : SseLoop) (line : SseLine) : SseLoop :=
  match line with
  | SseData (Some r) =>
      if truthy r then mkLoop r (handleStreamingResponse r (chat s)) else s
  | _ => s
  end.

(** What [handleAPIError(error)] resolves to (services/api is outside the
    hook): the text to show and whether the page is being redirected. *)
Record ApiError := mkApiError {
  errorUserMessage : string;
  shouldRedirect : bool
}.

Definition idIs (cid : option string) (msg : Message) : bool :=
  match cid with
  | Some c => id msg =? c
  | None => false
  end.

(** The [catch (error)] block, followed by the statement after the
    [try]/[catch].  [nowError] is the [Date.now()] reading of the new id.
    The updater reads the ref when [setMessages] is called. *)
Definition catchBlock (e : ApiError) (nowError : string) (st : ChatState) : ChatState :=
  if shouldRedirect e then st
  else
    let errorMessage :=
      mkMessage ("error-" +:+ nowError) assistant (Some (errorUserMessage e))
                false false true in
    let currentStreamingId := streamingMessageIdRef st in
    setCanSendMessage true
      (setCanSendMessage true
        (setStreamingRef None
          (setMessages
             (fun prev =>
                (List.filter (fun msg => negb (idIs currentStreamingId msg)) prev
                 ++ [errorMessage])%list)
             st))).

(** The handler from the call to its end: what the hook's state is once
    the [catch] block has run, when the [try] threw.  [e] is what
    [handleAPIError] resolved to and [nowError] the [Date.now()] reading. *)
Definition handleSendMessageEnd (e : ApiError) (nowError : string)
    (r : SendResult) : ChatState :=
  match r with
  | Rejected st => st
  | SentOverWs st _ => st
  | FallbackThrew st _ => catchBlock e nowError st
  end.

(** ** Reading the flags *)

(** The flags carry three conditions.  A cancelled message has the flags of
    a complete one and is told apart by the notice at its end. *)
Inductive Status := streaming | complete | errored.

Definition status (m : Message) : Status :=
  if isStreaming m || isLoading m then streaming
  else if isError m then errored
  else complete.

Definition terminal (m : Message) : bool :=
  match status m with
  | streaming => false
  | _ => true
  end.

(** A frame of either transport. *)
Inductive Frame :=
| PushFrame (f : WsFrame)
| PullFrame (line : SseLine).

(** Delivering a frame: a socket event goes to the listener, a body line
    through the loop body. *)
Definition deliver (s : SseLoop) (f : Frame) : SseLoop :=
  match f with
  | PushFrame w => mkLoop (fullResponse s) (handleWebSocketMessage w (chat s))
  | PullFrame l => sseLine s l
  end.

Definition deliverAll (fs : list Frame) (s : SseLoop) : SseLoop :=
  fold_left deliver fs s.

(** The ways a stream ends: the two terminal socket frames, the completion
    callback of the SSE path, the stop button, and the [catch] block when it
    does not leave for the login page. *)
Inductive TerminalEvent :=
| TeComplete (fullContent : jsstring)
| TeError (message : jsstring)
| TeSseComplete (result : string)
| TeStop
| TeCatch (errorText : string) (nowError : string).

Definition terminate (t : TerminalEvent) (st : ChatState) : ChatState :=
  match t with
  | TeComplete c => handleWebSocketMessage (WsStreamComplete c) st
  | TeError m => handleWebSocketMessage (WsError m) st
  | TeSseComplete r => handleStreamingComplete r st
  | TeStop => handleStopGeneration st
  | TeCatch msg n => catchBlock (mkApiError msg false) n st
  end.

(** ** Sample runs *)

(** The hook right after mounting. *)
Definition initialChat : ChatState := mkChat [] "" true None.

Definition envWs : TurnEnv := mkEnv "1700000000001" "1700000000002" true true [] "model" None None.


(** A turn sent over the socket, and the same turn with the socket down,
    at the point where the handler throws. *)
Definition wsTurn : ChatState :=
  resultState (handleSendMessage envWs (setInputValue "hi" initialChat)).


(** The socket turn after the chunk "Hello wor". *)
Definition partialChat : ChatState :=
  handleWebSocketMessage (WsStreamChunk "Hello wor") wsTurn.

Definition networkError : ApiError := mkApiError "network error" false.

(** Sixty finished exchanges: a question and its answer each. *)
Definition exchange (n : nat) : list Message :=
  [ mkMessage "user-q" user (Some (String (ascii_of_nat (48 + n mod 10)) "?")) false false false;
    mkMessage "streaming-a" assistant (Some (String (ascii_of_nat (48 + n mod 10)) "!")) false false false ].

Definition longChat : ChatState :=
  mkChat (flat_map exchange (seq 0 60)) "next question" true None.

(** The filter of [chatHistory], by name. *)
Definition isCompleted (msg : Message) : bool :=
  negb (isLoading msg) && negb (isError msg) && negb (isStreaming msg).

(** The user message [handleSendMessage] builds. *)
Definition userMessageOf (env : TurnEnv) (st : ChatState) : Message :=
  mkMessage ("user-" +:+ nowUser env) user (Some (trim (inputValue st))) false false false.

(** The shown text [c'] is the shown text [c] with something added at its end. *)
Definition extends (c c' : jsstring) : Prop :=
  exists suffix, or_empty c' = or_empty c +:+ suffix.

(** A socket frame that ends the stream. *)
Definition endsStream (f : WsFrame) : bool :=
  match f with
  | WsStreamComplete _ | WsError _ => true
  | _ => false
  end.

(** ** Splitting text at line feeds *)

(** Put a character in front of the first segment. *)
Definition consHead (c : ascii) (segs : list string) : list string :=
  match segs with
  | seg :: rest => String c seg :: rest
  | [] => [String c EmptyString]
  end.

(** [s.split("\n")]: the pieces between line feeds, at least one. *)
Fixpoint splitNl (s : string) : list string :=
  match s with
  | EmptyString => [EmptyString]
  | String c s' =>
      if Ascii.eqb c "010" then EmptyString :: splitNl s'
      else consHead c (splitNl s')
  end.

(** Strings one after the other. *)
Definition bodyText (chunks : list string) : string :=
  fold_right String.append EmptyString chunks.

(** ** The input box *)

(** The height formula of [adjustInputHeight] for a number of lines. *)
Definition heightForLines (estimatedLines : Z) : Z :=
  let calculatedHeight :=
    if (estimatedLines <=? 3)%Z then (24 + (estimatedLines - 1) * 22)%Z
    else if (estimatedLines <=? 10)%Z then (150 + (estimatedLines - 6) * 15)%Z
    else Z.min 400 (150 + (estimatedLines - 6) * 12) in
  Z.max 24 calculatedHeight.

(** [Math.max(value.split("\n").length, Math.ceil(value.length / 80))];
    one character of the model counts as one unit of [value.length]. *)
Definition estimatedLinesOf (value : string) : Z :=
  Z.max (Z.of_nat (length (splitNl value)))
        ((Z.of_nat (String.length value) + 79) / 80).

(** The height [adjustInputHeight(value)] passes to [setInputHeight]. *)
Definition adjustInputHeight (value : string) : Z :=
  if negb (truthy (trim value)) then 24%Z
  else heightForLines (estimatedLinesOf value).

(** [generateConversationTitle(userInput)] *)
Definition generateConversationTitle (userInput : string) : string :=
  let firstLine := or_empty (head (splitNl userInput)) in
  let title :=
    if (50 <? String.length firstLine)%nat
    then String.substring 0 47 firstLine +:+ "..."
    else firstLine in
  if truthy (trim title) then trim title else "새 대화".

(** ** Prompt cards *)

(** A card as the component receives it; [None] is a property that is
    absent or [undefined]. *)
Record RawCard := mkRawCard {
  cardPromptId : jsstring;
  card_prompt_id : jsstring;
  cardTitle : jsstring;
  card_prompt_text : jsstring;
  cardContent : jsstring;
  cardTags : option (list string);
  cardIsActive : option bool;
  cardEnabled : option bool;
  cardStepOrder : option nat
}.

(** [a || b] on strings that may be undefined. *)
Definition js_or (a b : jsstring) : jsstring :=
  match a with
  | Some s => if truthy s then a else b
  | None => b
  end.

(** [v !== false] *)
Definition notFalse (v : option bool) : bool :=
  match v with
  | Some false => false
  | _ => true
  end.

(** The object literal of the [map] step ([isActive] is [true] on every
    card that passed the first filter and is left out). *)
Definition toPromptCard (card : RawCard) : PromptCard :=
  mkCard (js_or (cardPromptId card) (card_prompt_id card))
         (or_empty (js_or (cardTitle card) (Some "Untitled")))
         (or_empty (js_or (js_or (card_prompt_text card) (cardContent card)) (Some "")))
         (default [] (cardTags card))
         (default 0 (cardStepOrder card)).

(** Where the stable sort puts a card among cards already in order: behind
    every card whose [stepOrder] is smaller, in front of the rest. *)
Fixpoint insertByStep (c : PromptCard) (l : list PromptCard) : list PromptCard :=
  match l with
  | [] => [c]
  | d :: l' =>
      if (stepOrder d <? stepOrder c)%nat then d :: insertByStep c l'
      else c :: d :: l'
  end.

(** [.sort((a, b) => (a.stepOrder || 0) - (b.stepOrder || 0))]; the sort of
    the language is stable. *)
Fixpoint sortByStep (l : list PromptCard) : list PromptCard :=
  match l with
  | [] => []
  | c :: l' => insertByStep c (sortByStep l')
  end.

(** [activePromptCards] from the [promptCards] argument. *)
Definition activeCards (promptCards : list RawCard) : list PromptCard :=
  sortByStep
    (List.filter (fun card => truthy (trim (prompt_text card)))
       (map toPromptCard
          (List.filter (fun card => notFalse (cardIsActive card) && notFalse (cardEnabled card))
             promptCards))).

(** ** Key presses *)

(** [handleKeyPress(e)]: plain Enter sends, anything else is left to the
    text area. *)
Definition handleKeyPress (key : string) (shiftKey : bool) (env : TurnEnv)
    (st : ChatState) : SendResult :=
  if (key =? "Enter") && negb shiftKey then handleSendMessage env st
  else Rejected st.

(** More sample data. *)
Definition sampleCards : list RawCard :=
  [ mkRawCard (Some "c") None (Some "Third") (Some "tone") None None None None (Some 3);
    mkRawCard None (Some "a") None None (Some "style") None (Some true) None (Some 1);
    mkRawCard (Some "x") None (Some "Off") (Some "ignored") None None (Some false) None (Some 0);
    mkRawCard (Some "b") None (Some "Blank") (Some "   ") None None None None (Some 2);
    mkRawCard (Some "d") None (Some "Second first") (Some "facts") None None None None (Some 1) ].

(** Whether a send went past the guard. *)
Definition accepted (r : SendResult) : bool :=
  match r with
  | Rejected _ => false
  | _ => true
  end.

(** A string of white space only (the empty string included). *)
Definition blank (s : string) : bool :=
  forallb isSpace (list_ascii_of_string s).

(** First character, if any. *)
Definition firstChar (s : string) : option ascii :=
  match s with
  | EmptyString => None
  | String c _ => Some c
  end.

(** The text a socket frame adds to the message: a chunk's payload. *)
Definition chunkText (f : WsFrame) : string :=
  match f with
  | WsStreamChunk c => c
  | _ => EmptyString
  end.

(** Running socket frames in arrival order. *)
Definition wsRun (fs : list WsFrame) (st : ChatState) : ChatState :=
  fold_left (fun s f => handleWebSocketMessage f s) fs st.

(** No message of the list carries the id. *)
Definition freshId (sid : string) (l : list Message) : bool :=
  forallb (fun msg => negb (id msg =? sid)) l.

(** The id [handleSendMessage] gives the placeholder of a turn. *)
Definition streamIdOf (env : TurnEnv) : string := "streaming-" +:+ nowStream env.

(** The assistant message of a finished turn. *)
Definition answerOf (env : TurnEnv) (text : jsstring) : Message :=
  mkMessage (streamIdOf env) assistant text false false false.

(** The placeholder [handleSendMessage] appends for the answer. *)
Definition placeholderOf (env : TurnEnv) : Message :=
  mkMessage (streamIdOf env) assistant (Some "") true true false.

(** Whether a text holds a line feed. *)
Definition hasNl (s : string) : bool :=
  existsb (Ascii.eqb "010") (list_ascii_of_string s).

(** The two filters and the [map] of [activeCards], before the sort. *)
Definition eligibleCards (promptCards : list RawCard) : list PromptCard :=
  List.filter (fun card => truthy (trim (prompt_text card)))
    (map toPromptCard
       (List.filter (fun card => notFalse (cardIsActive card) && notFalse (cardEnabled card))
          promptCards)).

(** The cards of a list with a given [stepOrder], in the list's order. *)
Definition withStep (k : nat) (l : list PromptCard) : list PromptCard :=
  List.filter (fun c => stepOrder c =? k)%nat l.

(** ** The thinking-process hook, [useThinkingProcess] *)

(** A number inside a template literal. *)
Definition showNat (n : nat) : string := NilEmpty.string_of_uint (Nat.to_uint n).

Definition showZ (z : Z) : string := NilZero.string_of_int (Z.to_int z).

(** One step of the list.  [timestamp], [duration], [details],
    [completedAt] and [errorAt] are stored and never read by the hook. *)
Record Step := mkStep {
  stepId : string;
  stepType : string;
  stepTitle : jsstring;
  stepDescription : string;
  stepStatus : string;
  stepProgress : option Z
}.

(** The argument of [addStep]; [None] is a key the caller left out.  The
    object literal ends with [...stepConfig], so a key that is present wins
    over the default written before it.  The callers in the hook pass no
    [id]; the [autoComplete] timer shows up as a later [completeStep]. *)
Record StepConfig := mkConfig {
  cfgType : option string;
  cfgTitle : jsstring;
  cfgDescription : option string;
  cfgStatus : option string;
  cfgProgress : option Z
}.

(** The [updates] object of [updateStep]. *)
Record StepUpdates := mkUpdates {
  updType : option string;
  updTitle : option string;
  updDescription : option string;
  updStatus : option string;
  updProgress : option Z
}.

(** The hook's state: three [useState] cells and the counter ref. *)
Record Thinking := mkThinking {
  steps : list Step;
  currentStep : jsstring;
  isThinking : bool;
  stepIdCounter : nat
}.

Definition initialThinking : Thinking := mkThinking [] None false 0.

Definition startThinking (th : Thinking) : Thinking := mkThinking [] None true 0.

Definition finishThinking (th : Thinking) : Thinking :=
  mkThinking
    (map (fun step =>
            if stepStatus step =? "active"
            then mkStep (stepId step) (stepType step) (stepTitle step)
                        (stepDescription step) "completed" (stepProgress step)
            else step)
         (steps th))
    None false (stepIdCounter th).

(** [addStep(stepConfig)]: the new state and the id it returns. *)
Definition addStep (cfg : StepConfig) (th : Thinking) : Thinking * string :=
  let n := S (stepIdCounter th) in
  let stepId := "step_" +:+ showNat n in
  let newStep :=
    mkStep stepId
           (default "processing" (cfgType cfg))
           (cfgTitle cfg)
           (default "처리 중..." (cfgDescription cfg))
           (default "active" (cfgStatus cfg))
           (cfgProgress cfg) in
  (mkThinking (steps th ++ [newStep])%list (cfgType cfg) (isThinking th) n, stepId).

Definition setSteps (f : list Step -> list Step) (th : Thinking) : Thinking :=
  mkThinking (f (steps th)) (currentStep th) (isThinking th) (stepIdCounter th).

(** [{ ...step, ...updates }] *)
Definition mergeStep (step : Step) (upd : StepUpdates) : Step :=
  mkStep (stepId step)
         (default (stepType step) (updType upd))
         (match updTitle upd with Some t => Some t | None => stepTitle step end)
         (default (stepDescription step) (updDescription upd))
         (default (stepStatus step) (updStatus upd))
         (match updProgress upd with Some p => Some p | None => stepProgress step end).

Definition updateStep (sid : string) (upd : StepUpdates) (th : Thinking) : Thinking :=
  setSteps (map (fun step => if stepId step =? sid then mergeStep step upd else step)) th.

Definition completeStep (sid : string) (message : jsstring) (th : Thinking) : Thinking :=
  setSteps
    (map (fun step =>
            if stepId step =? sid
            then mkStep (stepId step) (stepType step) (stepTitle step)
                        (or_empty (js_or message (Some (stepDescription step))))
                        "completed" (stepProgress step)
            else step))
    th.

Definition failStep (sid : string) (errorMessage : jsstring) (th : Thinking) : Thinking :=
  setSteps
    (map (fun step =>
            if stepId step =? sid
            then mkStep (stepId step) (stepType step) (stepTitle step)
                        (or_empty (js_or errorMessage (Some "오류가 발생했습니다")))
                        "error" (stepProgress step)
            else step))
    th.

(** [updateProgress(stepId, progress, message)], for a whole number. *)
Definition updateProgress (sid : string) (progress : Z) (message : jsstring)
    (th : Thinking) : Thinking :=
  updateStep sid
    (mkUpdates None None
       (Some (or_empty (js_or message (Some (showZ progress +:+ "% 완료")))))
       None
       (Some (Z.min 100 (Z.max 0 progress))))
    th.

Definition clearAllSteps (th : Thinking) : Thinking := setSteps (fun _ => []) th.

Definition getCompletedStepsCount (th : Thinking) : nat :=
  length (List.filter (fun s => stepStatus s =? "completed") (steps th)).

Definition getTotalStepsCount (th : Thinking) : nat := length (steps th).

(** The calls a component can make on the hook. *)
Inductive ThinkingOp :=
| OpStart
| OpFinish
| OpAdd (cfg : StepConfig)
| OpUpdate (sid : string) (upd : StepUpdates)
| OpComplete (sid : string) (message : jsstring)
| OpFail (sid : string) (errorMessage : jsstring)
| OpProgress (sid : string) (progress : Z) (message : jsstring)
| OpClear.

Definition applyOp (th : Thinking) (op : ThinkingOp) : Thinking :=
  match op with
  | OpStart => startThinking th
  | OpFinish => finishThinking th
  | OpAdd cfg => fst (addStep cfg th)
  | OpUpdate sid upd => updateStep sid upd th
  | OpComplete sid message => completeStep sid message th
  | OpFail sid errorMessage => failStep sid errorMessage th
  | OpProgress sid progress message => updateProgress sid progress message th
  | OpClear => clearAllSteps th
  end.

Definition runOps (ops : list ThinkingOp) (th : Thinking) : Thinking :=
  fold_left applyOp ops th.

(** The steps of a list with a given status. *)
Definition countStatus (status : string) (l : list Step) : nat :=
  length (List.filter (fun s => stepStatus s =? status) l).

Definition sampleOps : list ThinkingOp :=
  [ OpStart;
    OpAdd (mkConfig (Some "analyzing") (Some "Q") None None None);
    OpAdd (mkConfig (Some "searching") (Some "S") (Some "") None None);
    OpProgress "step_2" 140 None;
    OpComplete "step_1" (Some "done");
    OpClear;
    OpAdd (mkConfig None None None None None);
    OpFail "step_9" None ].

(** Every id in the list was handed out by the counter. *)
Definition numbered (th : Thinking) : Prop :=
  NoDup (map stepId (steps th)) /\
  Forall (fun i => exists k, k <= stepIdCounter th /\ i = "step_" +:+ showNat k)
         (map stepId (steps th)).

(** The state [handleSendMessage] leaves behind an accepted send. *)
Definition sentState (env : TurnEnv) (st : ChatState) : ChatState :=
  mkChat (messages st ++ [userMessageOf env st; placeholderOf env])%list
         "" false (Some (streamIdOf env)).

(** The request an accepted send hands to [wsStartStreaming]. *)
Definition wsRequestOf (env : TurnEnv) (st : ChatState) : WsRequest :=
  mkWsRequest (Some (trim (inputValue st)))
              (trimmedChatHistory (messages st) (userMessageOf env st))
              (activePromptCards env) (selectedModel env)
              (conversationIdToUse env) (userSub env).

(** The message the [catch] block appends. *)
Definition errorMessageOf (e : ApiError) (nowError : string) : Message :=
  mkMessage ("error-" +:+ nowError) assistant (Some (errorUserMessage e))
            false false true.

(** A connected socket whose send fails. *)
Definition envWsFails : TurnEnv :=
  mkEnv "1700000000001" "1700000000002" true false [] "model" None None.

(** * Properties *)

(** ** Arrays *)

Lemma findIndex_Some {A : Type} (p : A -> bool) (l : list A) (i : nat) :
  findIndex p l = Some i -> exists x, l !! i = Some x /\ p x = true.
Proof.
  revert i. induction l as [|a l IH]; intros i H; simpl in H.
  - discriminate.
  - destruct (p a) eqn:Hp.
    + injection H as <-. exists a. split; [reflexivity | exact Hp].
    + destruct (findIndex p l) as [j|]; simpl in H; [|discriminate].
      injection H as <-. destruct (IH j eq_refl) as (x & Hx & Hpx).
      exists x. split; [exact Hx | exact Hpx].
Qed.

Lemma findIndex_insert {A : Type} (p : A -> bool) (l : list A) (i : nat) (y : A) :
  findIndex p l = Some i -> p y = true -> findIndex p (<[i := y]> l) = Some i.
Proof.
  revert i. induction l as [|a l IH]; intros i H Hy; simpl in H.
  - discriminate.
  - destruct (p a) eqn:Hp.
    + injection H as <-. simpl. rewrite Hy. reflexivity.
    + destruct (findIndex p l) as [j|] eqn:Hj; simpl in H; [|discriminate].
      injection H as <-. simpl. rewrite Hp, (IH j eq_refl Hy). reflexivity.
Qed.

Lemma findMessage_id (cid : string) (l : list Message) (m : Message) :
  findMessage cid l = Some m -> id m = cid.
Proof.
  unfold findMessage. destruct (findIndex _ l) as [i|] eqn:Hi; [|discriminate].
  intros Hm. destruct (findIndex_Some _ _ _ Hi) as (x & Hx & Hp).
  rewrite Hm in Hx. injection Hx as <-. apply String.eqb_eq. exact Hp.
Qed.

Lemma findMessage_updateStreaming (cid : string) (f : Message -> Message)
    (l : list Message) :
  (forall m, id (f m) = id m) ->
  findMessage cid (updateStreaming cid f l) = f <$> findMessage cid l.
Proof.
  intros Hid. unfold findMessage, updateStreaming.
  destruct (findIndex _ l) as [i|] eqn:Hi.
  - destruct (findIndex_Some _ _ _ Hi) as (x & Hx & Hp). rewrite Hx.
    rewrite (findIndex_insert _ l i (f x) Hi); [|rewrite Hid; exact Hp].
    rewrite list_lookup_insert_eq; [reflexivity|].
    eapply lookup_lt_Some; exact Hx.
  - rewrite Hi. reflexivity.
Qed.

Lemma updateStreaming_lookup (cid : string) (f : Message -> Message)
    (l : list Message) (k : nat) (m m' : Message) :
  l !! k = Some m -> updateStreaming cid f l !! k = Some m' ->
  m' = m \/ m' = f m.
Proof.
  intros Hm. unfold updateStreaming.
  destruct (findIndex _ l) as [i|]; [|intros H; left; congruence].
  destruct (l !! i) as [x|] eqn:Hx; [|intros H; left; congruence].
  intros H. apply list_lookup_insert_Some in H as [(-> & <- & _)|(_ & H)].
  - right. congruence.
  - left. congruence.
Qed.

(** ** What a cleared reference means *)

Lemma activeId_Some (st : ChatState) (cid : string) :
  activeId st = Some cid -> streamingMessageIdRef st = Some cid /\ truthy cid = true.
Proof.
  unfold activeId. destruct (streamingMessageIdRef st) as [c|]; [|discriminate].
  destruct (truthy c) eqn:Ht; [|discriminate].
  intros H. injection H as <-. split; [reflexivity | exact Ht].
Qed.

Lemma ws_idle (f : WsFrame) (st : ChatState) :
  activeId st = None -> handleWebSocketMessage f st = st.
Proof. intros H. destruct f; simpl; rewrite ?H; reflexivity. Qed.

Lemma sseLine_idle (s : SseLoop) (line : SseLine) :
  activeId (chat s) = None -> chat (sseLine s line) = chat s.
Proof.
  intros H. destruct line as [| |[r|]]; simpl; try reflexivity.
  destruct (truthy r); simpl; [|reflexivity].
  unfold handleStreamingResponse. rewrite H. reflexivity.
Qed.

Lemma deliver_idle (s : SseLoop) (f : Frame) :
  activeId (chat s) = None -> chat (deliver s f) = chat s.
Proof.
  intros H. destruct f as [w|line]; simpl.
  - apply ws_idle, H.
  - apply sseLine_idle, H.
Qed.

Lemma deliverAll_idle (fs : list Frame) (s : SseLoop) :
  activeId (chat s) = None -> chat (deliverAll fs s) = chat s.
Proof.
  revert s. induction fs as [|f fs IH]; intros s H; simpl; [reflexivity|].
  unfold deliverAll in IH. rewrite IH.
  - apply deliver_idle, H.
  - rewrite deliver_idle; exact H.
Qed.

Lemma terminate_idle (t : TerminalEvent) (st : ChatState) :
  activeId (terminate t st) = None.
Proof.
  destruct t; simpl.
  - destruct (activeId st) eqn:H; [reflexivity | exact H].
  - destruct (activeId st) eqn:H; [reflexivity | exact H].
  - unfold handleStreamingComplete. destruct (activeId st) eqn:H; [reflexivity | exact H].
  - unfold handleStopGeneration. destruct (activeId st) eqn:H; [reflexivity|].
    unfold activeId in *. simpl. exact H.
  - reflexivity.
Qed.

(** ** Late frames *)

(** C5: once a stream has ended (by [stream_complete], by an [error] frame,
    by the SSE completion callback, by the stop button or in the [catch]
    block), no frame of either transport delivered afterwards changes the
    messages, the gate, the input or the stream reference: the state stays
    what the terminal event left, whatever the frames and however many. *)
Theorem late_frames_discarded (t : TerminalEvent) (st : ChatState)
    (fs : list Frame) (r : string) :
  chat (deliverAll fs (mkLoop r (terminate t st))) = terminate t st.
Proof.
  rewrite deliverAll_idle; simpl; [reflexivity|].
  apply terminate_idle.
Qed.

(** ** The gate *)

(** C7: while the gate is closed, [handleSendMessage] returns at its guard:
    the call is rejected and the state it leaves is the state it found, so
    the message list, the streaming message and the gate are untouched. *)
Theorem second_turn_rejected (env : TurnEnv) (st : ChatState) :
  canSendMessage st = false ->
  handleSendMessage env st = Rejected st /\
  resultState (handleSendMessage env st) = st /\
  outboundHistory (handleSendMessage env st) = None.
Proof.
  intros H. unfold handleSendMessage. rewrite H.
  rewrite orb_true_r. repeat split.
Qed.

Lemma second_turn_rejected_witness :
  canSendMessage partialChat = false /\
  handleSendMessage envWs (setInputValue "one more" partialChat)
  = Rejected (setInputValue "one more" partialChat).
Proof.
  split; [reflexivity|].
  apply (second_turn_rejected envWs (setInputValue "one more" partialChat)).
  reflexivity.
Defined.

(** ** Cancelling *)

(** C6: stopping an active stream whose message holds the partial text [p]
    leaves that message with the content [p] followed by two line feeds and
    the notice, no longer streaming or loading, and not marked as an error;
    the stream reference is cleared and the gate is open again. *)
Theorem stop_keeps_partial (st : ChatState) (cid : string) (m : Message) (p : string) :
  activeId st = Some cid ->
  findMessage cid (messages st) = Some m ->
  content m = Some p ->
  exists m',
    findMessage cid (messages (handleStopGeneration st)) = Some m' /\
    content m' = Some (p +:+ nl +:+ nl +:+ "[생성이 중단되었습니다]") /\
    isStreaming m' = false /\ isLoading m' = false /\ isError m' = isError m /\
    streamingMessageIdRef (handleStopGeneration st) = None /\
    canSendMessage (handleStopGeneration st) = true.
Proof.
  intros Ha Hm Hp. unfold handleStopGeneration. rewrite Ha. simpl.
  rewrite findMessage_updateStreaming by reflexivity. rewrite Hm. simpl.
  eexists. split; [reflexivity|]. simpl. rewrite Hp. simpl. repeat split.
Qed.

Lemma stop_keeps_partial_witness :
  exists m',
    findMessage "streaming-1700000000002" (messages (handleStopGeneration partialChat)) = Some m' /\
    content m' = Some ("Hello wor" +:+ nl +:+ nl +:+ "[생성이 중단되었습니다]") /\
    isStreaming m' = false /\ isLoading m' = false /\ isError m' = false /\
    streamingMessageIdRef (handleStopGeneration partialChat) = None /\
    canSendMessage (handleStopGeneration partialChat) = true.
Proof.
  apply (stop_keeps_partial partialChat "streaming-1700000000002"
           (mkMessage "streaming-1700000000002" assistant (Some "Hello wor") true true false)
           "Hello wor"); reflexivity.
Defined.

(** ** The terminal frame of the socket *)

Lemma ws_keeps_stream (f : WsFrame) (st : ChatState) (cid : string) (m : Message) :
  endsStream f = false ->
  activeId st = Some cid ->
  findMessage cid (messages st) = Some m ->
  activeId (handleWebSocketMessage f st) = Some cid /\
  exists m', findMessage cid (messages (handleWebSocketMessage f st)) = Some m'.
Proof.
  intros Hf Ha Hm. destruct f; try discriminate; simpl;
    try (split; [exact Ha | exists m; exact Hm]).
  rewrite Ha. split; [exact Ha|]. simpl.
  rewrite findMessage_updateStreaming by reflexivity. rewrite Hm. simpl. eauto.
Qed.

Lemma ws_run_keeps_stream (fs : list WsFrame) (st : ChatState) (cid : string) (m : Message) :
  forallb (fun f => negb (endsStream f)) fs = true ->
  activeId st = Some cid ->
  findMessage cid (messages st) = Some m ->
  activeId (fold_left (fun s f => handleWebSocketMessage f s) fs st) = Some cid /\
  exists m', findMessage cid
               (messages (fold_left (fun s f => handleWebSocketMessage f s) fs st)) = Some m'.
Proof.
  revert st m. induction fs as [|f fs IH]; intros st m Hfs Ha Hm; simpl.
  - split; [exact Ha | exists m; exact Hm].
  - simpl in Hfs. apply andb_true_iff in Hfs as [Hf Hfs].
    apply negb_true_iff in Hf.
    destruct (ws_keeps_stream f st cid m Hf Ha Hm) as (Ha' & m' & Hm').
    exact (IH _ m' Hfs Ha' Hm').
Qed.

(** C4: on an active socket stream, after any run of frames that do not end
    it (chunks, [stream_start], [progress], unknown or unparsable events), a
    [stream_complete] frame carrying [fullContent] leaves the assistant
    message with exactly that content, no longer streaming or loading, and
    clears the stream reference.  The chunks received before play no part. *)
Theorem complete_overwrites (st : ChatState) (cid : string) (m : Message)
    (history : list WsFrame) (fullContent : string) :
  activeId st = Some cid ->
  findMessage cid (messages st) = Some m ->
  forallb (fun f => negb (endsStream f)) history = true ->
  let final :=
    handleWebSocketMessage (WsStreamComplete (Some fullContent))
      (fold_left (fun s f => handleWebSocketMessage f s) history st) in
  exists m',
    findMessage cid (messages final) = Some m' /\
    content m' = Some fullContent /\
    isStreaming m' = false /\ isLoading m' = false /\
    streamingMessageIdRef final = None.
Proof.
  intros Ha Hm Hh final.
  destruct (ws_run_keeps_stream history st cid m Hh Ha Hm) as (Ha' & m1 & Hm1).
  subst final. simpl. rewrite Ha'. simpl.
  rewrite findMessage_updateStreaming by reflexivity. rewrite Hm1. simpl.
  eexists. split; [reflexivity|]. repeat split.
Qed.

Lemma complete_overwrites_witness :
  exists m',
    findMessage "streaming-1700000000002"
      (messages (handleWebSocketMessage (WsStreamComplete (Some "Hello world"))
         (fold_left (fun s f => handleWebSocketMessage f s)
            [WsStreamStart; WsStreamChunk "Hel"; WsProgress; WsStreamChunk "xyz"] wsTurn)))
    = Some m' /\
    content m' = Some "Hello world".
Proof.
  destruct (complete_overwrites wsTurn "streaming-1700000000002"
              (mkMessage "streaming-1700000000002" assistant (Some "") true true false)
              [WsStreamStart; WsStreamChunk "Hel"; WsProgress; WsStreamChunk "xyz"]
              "Hello world" eq_refl eq_refl eq_refl) as (m' & H1 & H2 & _).
  exists m'. split; [exact H1 | exact H2].
Defined.

(** ** The history window *)


Lemma chatHistory_snoc (msgs : list Message) (u : Message) :
  isCompleted u = true ->
  chatHistory msgs u = (map toEntry (List.filter isCompleted msgs) ++ [toEntry u])%list.
Proof.
  intros Hu. unfold chatHistory. fold isCompleted.
  rewrite List.filter_app, map_app. simpl. rewrite Hu. reflexivity.
Qed.

(** ** Content while streaming, status afterwards *)

Lemma append_assoc (a b c : string) : (a +:+ b) +:+ c = a +:+ (b +:+ c).
Proof.
  induction a as [|x a IH]; [reflexivity|].
  change (String x ((a +:+ b) +:+ c) = String x (a +:+ (b +:+ c))).
  f_equal. exact IH.
Qed.

Lemma length_append (a b : string) :
  String.length (a +:+ b) = String.length a + String.length b.
Proof.
  induction a as [|x a IH]; [reflexivity|].
  change (S (String.length (a +:+ b)) = S (String.length a + String.length b)).
  f_equal. exact IH.
Qed.

Lemma append_empty_r (a : string) : a +:+ "" = a.
Proof.
  induction a as [|x a IH]; [reflexivity|].
  change (String x (a +:+ "") = String x a). f_equal. exact IH.
Qed.

Lemma extends_refl (c : jsstring) : extends c c.
Proof. exists "". symmetry. apply append_empty_r. Qed.

Lemma extends_trans (a b c : jsstring) : extends a b -> extends b c -> extends a c.
Proof.
  intros [x Hx] [y Hy]. exists (x +:+ y). rewrite Hy, Hx. apply append_assoc.
Qed.

Lemma extends_length (c c' : jsstring) :
  extends c c' -> content_length c <= content_length c'.
Proof.
  intros [x Hx]. destruct c as [a|], c' as [b|]; simpl in *; subst;
    rewrite ?length_append; try lia.
  destruct a; [simpl; lia | discriminate].
Qed.

Lemma updateStreaming_length (cid : string) (f : Message -> Message) (l : list Message) :
  length (updateStreaming cid f l) = length l.
Proof.
  unfold updateStreaming. destruct (findIndex _ l); [|reflexivity].
  destruct (l !! n); [apply length_insert | reflexivity].
Qed.

Lemma deliver_length (s : SseLoop) (f : Frame) :
  length (messages (chat (deliver s f))) = length (messages (chat s)).
Proof.
  destruct f as [w|line]; simpl.
  - destruct w; simpl; try reflexivity;
      destruct (activeId (chat s)); simpl; try reflexivity;
      apply updateStreaming_length.
  - destruct line as [| |[r|]]; simpl; try reflexivity.
    destruct (truthy r); simpl; [|reflexivity].
    unfold handleStreamingResponse. destruct (activeId (chat s)); simpl;
      [apply updateStreaming_length | reflexivity].
Qed.

(** What one frame can do to the message at a position: leave it as it is,
    add to its text while it streams, or end it and clear the reference. *)
Lemma deliver_cases (s : SseLoop) (f : Frame) (k : nat) (m m' : Message) :
  messages (chat s) !! k = Some m ->
  messages (chat (deliver s f)) !! k = Some m' ->
  m' = m \/
  (status m' = streaming /\ extends (content m) (content m')) \/
  (terminal m' = true /\ activeId (chat (deliver s f)) = None).
Proof.
  intros Hm Hm'. destruct f as [w|line]; simpl in *.
  - destruct w; simpl in *; try (left; congruence).
    + destruct (activeId (chat s)) as [cid|]; simpl in *; [|left; congruence].
      destruct (updateStreaming_lookup _ _ _ _ _ _ Hm Hm') as [->| ->]; [left; reflexivity|].
      right; left. split; [reflexivity|]. exists chunk. reflexivity.
    + destruct (activeId (chat s)) as [cid|]; simpl in *; [|left; congruence].
      destruct (updateStreaming_lookup _ _ _ _ _ _ Hm Hm') as [->| ->]; [left; reflexivity|].
      right; right. split; [|reflexivity].
      unfold terminal, status. simpl. destruct (isError m); reflexivity.
    + destruct (activeId (chat s)) as [cid|]; simpl in *; [|left; congruence].
      destruct (updateStreaming_lookup _ _ _ _ _ _ Hm Hm') as [->| ->]; [left; reflexivity|].
      right; right. split; reflexivity.
  - destruct line as [| |[r|]]; simpl in *; try (left; congruence).
    destruct (truthy r); simpl in *; [|left; congruence].
    unfold handleStreamingResponse in Hm'.
    destruct (activeId (chat s)) as [cid|]; simpl in *; [|left; congruence].
    destruct (updateStreaming_lookup _ _ _ _ _ _ Hm Hm') as [->| ->]; [left; reflexivity|].
    right; left. split; [reflexivity|].
    unfold extends. simpl. destruct (content m) as [a|]; simpl.
    + exists r. reflexivity.
    + exists ("undefined" +:+ r). reflexivity.
Qed.

Lemma lookup_after_deliver (s : SseLoop) (f : Frame) (k : nat) (m : Message) :
  messages (chat s) !! k = Some m ->
  exists m', messages (chat (deliver s f)) !! k = Some m'.
Proof.
  intros Hm. apply lookup_lt_is_Some. rewrite deliver_length.
  eapply lookup_lt_Some. exact Hm.
Qed.

Lemma streaming_content_grows (fs : list Frame) (s : SseLoop) (k : nat) (m m' : Message) :
  messages (chat s) !! k = Some m ->
  messages (chat (deliverAll fs s)) !! k = Some m' ->
  status m' = streaming ->
  extends (content m) (content m').
Proof.
  revert s m. induction fs as [|f fs IH]; intros s m Hm Hm' Hs; simpl in Hm'.
  - assert (m' = m) as -> by congruence. apply extends_refl.
  - destruct (lookup_after_deliver s f k m Hm) as [m1 Hm1].
    destruct (deliver_cases s f k m m1 Hm Hm1) as [->|[[_ He]|[Ht Hidle]]].
    + exact (IH _ _ Hm1 Hm' Hs).
    + eapply extends_trans; [exact He|]. exact (IH _ _ Hm1 Hm' Hs).
    + fold (deliverAll fs (deliver s f)) in Hm'.
      rewrite (deliverAll_idle fs _ Hidle) in Hm'.
      assert (m' = m1) as -> by congruence.
      unfold terminal in Ht. rewrite Hs in Ht. discriminate.
Qed.

Lemma terminal_stays (s : SseLoop) (f : Frame) (fs : list Frame) (k : nat)
    (m m1 : Message) :
  messages (chat s) !! k = Some m ->
  messages (chat (deliver s f)) !! k = Some m1 ->
  terminal m = false -> terminal m1 = true ->
  messages (chat (deliverAll fs (deliver s f))) !! k = Some m1.
Proof.
  intros Hm Hm1 Hn Ht.
  destruct (deliver_cases s f k m m1 Hm Hm1) as [->|[[Hs _]|[_ Hidle]]].
  - congruence.
  - unfold terminal in Ht. rewrite Hs in Ht. discriminate.
  - rewrite (deliverAll_idle fs _ Hidle). exact Hm1.
Qed.

(** C9: take the message at any position of the list and any run of frames
    of either transport.  (1) If the message is streaming after the run, its
    text after the run is its text before the run with something added at
    the end, so its length has not gone down.  (2) If one frame takes the
    message from streaming to a terminal status, every later run of frames
    leaves it exactly as that frame left it: it does not stream again.
    (3) The same holds behind any other way a stream ends (completion
    callback, stop button, [catch] block). *)
Theorem append_only_then_final (s : SseLoop) (f : Frame) (fs : list Frame)
    (k : nat) (m m1 m2 : Message) :
  messages (chat s) !! k = Some m ->
  messages (chat (deliver s f)) !! k = Some m1 ->
  messages (chat (deliverAll fs (deliver s f))) !! k = Some m2 ->
  (status m2 = streaming ->
     extends (content m) (content m2) /\
     content_length (content m) <= content_length (content m2)) /\
  (terminal m = false -> terminal m1 = true -> m2 = m1 /\ terminal m2 = true) /\
  (forall t r, messages (chat (deliverAll fs (mkLoop r (terminate t (chat s))))) !! k
               = messages (terminate t (chat s)) !! k).
Proof.
  intros Hm Hm1 Hm2. split; [|split].
  - intros Hs.
    assert (He : extends (content m) (content m2)).
    { apply (streaming_content_grows (f :: fs) s k m m2 Hm); [exact Hm2 | exact Hs]. }
    split; [exact He | apply extends_length, He].
  - intros Hn Ht.
    pose proof (terminal_stays s f fs k m m1 Hm Hm1 Hn Ht) as H.
    assert (m2 = m1) as -> by congruence. split; [reflexivity | exact Ht].
  - intros t r. rewrite deliverAll_idle; [reflexivity|]. simpl. apply terminate_idle.
Qed.

Lemma append_only_then_final_witness :
  (extends (Some "") (Some "Hello world") /\ 0 <= 11) /\
  (terminal (mkMessage "streaming-1700000000002" assistant (Some "Hello wor") true true false) = false /\
   messages (chat (deliverAll [PushFrame (WsStreamChunk "late"); PullFrame (SseData (Some "late"))]
                     (deliver (mkLoop "" partialChat)
                        (PushFrame (WsStreamComplete (Some "Hello world")))))) !! 1
   = Some (mkMessage "streaming-1700000000002" assistant (Some "Hello world") false false false)).
Proof.
  split.
  - refine (proj1 (append_only_then_final (mkLoop "" wsTurn)
             (PushFrame (WsStreamChunk "Hello"))
             [PushFrame WsProgress; PushFrame (WsStreamChunk " world")] 1
             (mkMessage "streaming-1700000000002" assistant (Some "") true true false)
             (mkMessage "streaming-1700000000002" assistant (Some "Hello") true true false)
             (mkMessage "streaming-1700000000002" assistant (Some "Hello world") true true false)
             eq_refl eq_refl eq_refl) eq_refl).
  - split; [reflexivity|].
    destruct (append_only_then_final (mkLoop "" partialChat)
             (PushFrame (WsStreamComplete (Some "Hello world")))
             [PushFrame (WsStreamChunk "late"); PullFrame (SseData (Some "late"))] 1
             (mkMessage "streaming-1700000000002" assistant (Some "Hello wor") true true false)
             (mkMessage "streaming-1700000000002" assistant (Some "Hello world") false false false)
             (mkMessage "streaming-1700000000002" assistant (Some "Hello world") false false false)
             eq_refl eq_refl eq_refl) as (_ & H & _).
    destruct (H eq_refl eq_refl) as [_ _]. reflexivity.
Defined.

(** ** The loop body on one line *)

Lemma sse_frame_appends (s : SseLoop) (cid : string) (m : Message) (r : string) :
  activeId (chat s) = Some cid ->
  findMessage cid (messages (chat s)) = Some m ->
  truthy r = true ->
  findMessage cid (messages (chat (sseLine s (SseData (Some r)))))
  = Some (mkMessage (id m) (type m) (Some (js_concat (content m) r)) true true (isError m)) /\
  fullResponse (sseLine s (SseData (Some r))) = r.
Proof.
  intros Ha Hm Hr. simpl. rewrite Hr. simpl. split; [|reflexivity].
  unfold handleStreamingResponse. rewrite Ha. simpl.
  rewrite findMessage_updateStreaming by reflexivity. rewrite Hm. reflexivity.
Qed.

(** ** Errors *)

Lemma errorContent_cases (message : jsstring) :
  errorContent message = errAuth \/ errorContent message = errTimeout \/
  errorContent message = errRateLimit \/ errorContent message = errGeneric.
Proof.
  unfold errorContent.
  destruct (_ || _); [auto|]. destruct (_ || _); [auto|]. destruct (_ || _); auto.
Qed.

(** C2, as the code has it: on an active stream, an [error] frame turns the
    assistant message into an error message whose content is one of the four
    notices, chosen from the frame's [message]; the text received so far is
    replaced, not kept, and the stream reference is cleared.  When the SSE
    path fails and the page is not redirected, the streaming message is
    removed from the list, a new error message carrying the text from
    [handleAPIError] is appended, the reference is cleared and the gate is
    open. *)
Theorem error_replaces_partial (st : ChatState) (cid : string) (m : Message) :
  activeId st = Some cid ->
  findMessage cid (messages st) = Some m ->
  (forall message,
     findMessage cid (messages (handleWebSocketMessage (WsError message) st))
     = Some (mkMessage (id m) (type m) (Some (errorContent message)) false false true) /\
     (errorContent message = errAuth \/ errorContent message = errTimeout \/
      errorContent message = errRateLimit \/ errorContent message = errGeneric) /\
     streamingMessageIdRef (handleWebSocketMessage (WsError message) st) = None) /\
  (forall text nowError,
     messages (catchBlock (mkApiError text false) nowError st)
     = (List.filter (fun msg => negb (id msg =? cid)) (messages st)
        ++ [mkMessage ("error-" +:+ nowError) assistant (Some text) false false true])%list /\
     streamingMessageIdRef (catchBlock (mkApiError text false) nowError st) = None /\
     canSendMessage (catchBlock (mkApiError text false) nowError st) = true).
Proof.
  intros Ha Hm. split.
  - intros message. simpl. rewrite Ha. simpl.
    rewrite findMessage_updateStreaming by reflexivity. rewrite Hm.
    split; [reflexivity|]. split; [apply errorContent_cases | reflexivity].
  - intros text nowError. unfold catchBlock. simpl.
    destruct (activeId_Some st cid Ha) as [Href _]. rewrite Href.
    repeat split.
Qed.

Lemma error_replaces_partial_witness :
  findMessage "streaming-1700000000002"
    (messages (handleWebSocketMessage (WsError (Some "Lambda timeout")) partialChat))
  = Some (mkMessage "streaming-1700000000002" assistant (Some errTimeout) false false true) /\
  messages (catchBlock (mkApiError "network error" false) "1700000000009" partialChat)
  = [ mkMessage "user-1700000000001" user (Some "hi") false false false;
      mkMessage "error-1700000000009" assistant (Some "network error") false false true ].
Proof.
  destruct (error_replaces_partial partialChat "streaming-1700000000002"
              (mkMessage "streaming-1700000000002" assistant (Some "Hello wor") true true false)
              eq_refl eq_refl) as [Hframe Hcatch].
  split.
  - exact (proj1 (Hframe (Some "Lambda timeout"))).
  - exact (proj1 (Hcatch "network error" "1700000000009")).
Defined.

(** C2 as stated fails: with "Hello wor" received, an [error] frame leaves
    the generic notice alone as the content, which does not start with
    "Hello wor" and is not "Hello wor" followed by anything; and the [catch]
    block leaves no message with the stream's id at all. *)
Lemma error_discards_partial :
  (content <$> findMessage "streaming-1700000000002" (messages partialChat))
  = Some (Some "Hello wor") /\
  (content <$> findMessage "streaming-1700000000002"
     (messages (handleWebSocketMessage (WsError (Some "boom")) partialChat)))
  = Some (Some errGeneric) /\
  String.prefix "Hello wor" errGeneric = false /\
  (forall notice, errGeneric <> "Hello wor" +:+ notice) /\
  findMessage "streaming-1700000000002"
    (messages (catchBlock networkError "1700000000009" partialChat)) = None.
Proof.
  split; [reflexivity|]. split; [reflexivity|]. split; [reflexivity|].
  split; [|reflexivity].
  intros notice H. vm_compute in H. discriminate H.
Qed.

(** ** The gate on the socket path *)

Lemma ws_keeps_gate (f : WsFrame) (st : ChatState) :
  canSendMessage (handleWebSocketMessage f st) = canSendMessage st.
Proof. destruct f; simpl; try reflexivity; destruct (activeId st); reflexivity. Qed.

(** C3: what the code does on the socket path.  No socket frame ever changes
    the gate.  A turn sent over the socket closes it; after [stream_complete]
    (or an [error] frame) the message is terminal and the reference cleared,
    yet the gate is still closed and the next send is turned away at the
    guard.  The SSE completion callback, the stop button and the [catch]
    block do open it. *)
Theorem ws_terminal_keeps_gate_closed :
  (forall f st, canSendMessage (handleWebSocketMessage f st) = canSendMessage st) /\
  canSendMessage wsTurn = false /\
  (let finished := handleWebSocketMessage (WsStreamComplete (Some "Hello world")) partialChat in
   (terminal <$> findMessage "streaming-1700000000002" (messages finished)) = Some true /\
   streamingMessageIdRef finished = None /\
   canSendMessage finished = false /\
   handleSendMessage envWs (setInputValue "next" finished)
   = Rejected (setInputValue "next" finished)) /\
  (let failed := handleWebSocketMessage (WsError (Some "boom")) partialChat in
   (terminal <$> findMessage "streaming-1700000000002" (messages failed)) = Some true /\
   streamingMessageIdRef failed = None /\
   canSendMessage failed = false) /\
  canSendMessage (handleStreamingComplete "Hello world" partialChat) = true /\
  (forall st, canSendMessage (handleStopGeneration st) = true) /\
  (forall text n st, canSendMessage (catchBlock (mkApiError text false) n st) = true).
Proof.
  split; [exact ws_keeps_gate|].
  split; [reflexivity|]. split; [repeat split|]. split; [repeat split|].
  repeat split.
Qed.

(** * Further properties of the hook *)

(** ** Trimming and the send guard *)

Lemma trimStart_blank (s : string) : blank s = true -> trimStart s = "".
Proof.
  induction s as [|c s IH]; [reflexivity|]. unfold blank. simpl.
  intros H. apply andb_true_iff in H as [Hc Hs]. rewrite Hc. apply IH, Hs.
Qed.

Lemma trimStart_first (s : string) :
  match firstChar (trimStart s) with
  | Some c => isSpace c = false
  | None => blank s = true
  end.
Proof.
  induction s as [|c s IH]; [reflexivity|]. simpl.
  destruct (isSpace c) eqn:Hc.
  - destruct (firstChar (trimStart s)); [exact IH|].
    unfold blank in *. simpl. rewrite Hc. exact IH.
  - simpl. exact Hc.
Qed.

Lemma trimEnd_first (s : string) (c : ascii) :
  firstChar s = Some c -> isSpace c = false -> firstChar (trimEnd s) = Some c.
Proof.
  destruct s as [|d s]; [discriminate|]. simpl. intros H Hc.
  injection H as ->. rewrite Hc. reflexivity.
Qed.

Lemma trimEnd_idempotent (s : string) : trimEnd (trimEnd s) = trimEnd s.
Proof.
  induction s as [|c s IH]; [reflexivity|]. simpl.
  destruct (isSpace c && (trimEnd s =? "")) eqn:H; [reflexivity|].
  simpl. rewrite IH, H. reflexivity.
Qed.

Lemma trimStart_fixed (s : string) (c : ascii) :
  firstChar s = Some c -> isSpace c = false -> trimStart s = s.
Proof.
  destruct s as [|d s]; [discriminate|]. simpl. intros H Hc.
  injection H as ->. rewrite Hc. reflexivity.
Qed.

Lemma trim_empty_iff (s : string) : trim s = "" <-> blank s = true.
Proof.
  unfold trim. pose proof (trimStart_first s) as H. split.
  - intros He. destruct (firstChar (trimStart s)) as [c|] eqn:Hf; [|exact H].
    pose proof (trimEnd_first _ _ Hf H) as Hc. rewrite He in Hc. discriminate.
  - intros Hb. rewrite (trimStart_blank s Hb). reflexivity.
Qed.

Lemma truthy_trim (s : string) : truthy (trim s) = negb (blank s).
Proof.
  unfold truthy. destruct (blank s) eqn:Hb.
  - apply trim_empty_iff in Hb. rewrite Hb. reflexivity.
  - destruct (trim s =? "") eqn:He; [|reflexivity].
    apply String.eqb_eq, trim_empty_iff in He. congruence.
Qed.

(** [trim] strips all there is to strip: trimming again changes nothing, and
    what is left is empty or starts with a character that is not white
    space.  The result is empty exactly for input that is white space only. *)
Lemma trim_is_thorough (s : string) :
  trim (trim s) = trim s /\
  trimStart (trim s) = trim s /\
  trimEnd (trim s) = trim s /\
  match firstChar (trim s) with
  | Some c => isSpace c = false
  | None => blank s = true
  end /\
  (trim s = "" <-> blank s = true).
Proof.
  assert (Hend : trimEnd (trim s) = trim s) by apply trimEnd_idempotent.
  assert (Hfirst : match firstChar (trim s) with
                   | Some c => isSpace c = false
                   | None => blank s = true
                   end).
  { pose proof (trimStart_first s) as H. unfold trim.
    destruct (firstChar (trimStart s)) as [c|] eqn:Hf.
    - rewrite (trimEnd_first _ _ Hf H). exact H.
    - destruct (trimStart s); [exact H | discriminate]. }
  assert (Hstart : trimStart (trim s) = trim s).
  { destruct (firstChar (trim s)) as [c|] eqn:Hf.
    - apply (trimStart_fixed _ c Hf Hfirst).
    - destruct (trim s); [reflexivity | discriminate]. }
  split; [|split; [exact Hstart|split; [exact Hend|split; [exact Hfirst|apply trim_empty_iff]]]].
  unfold trim at 1. rewrite Hstart. exact Hend.
Qed.

(** X8: A key press starts a turn exactly when it is Enter without Shift, the
    input is not white space only, and the gate is open; in every other
    case the state is left as it was. *)
Theorem keypress_sends_iff (key : string) (shiftKey : bool) (env : TurnEnv)
    (st : ChatState) :
  accepted (handleKeyPress key shiftKey env st)
  = (key =? "Enter") && negb shiftKey && negb (blank (inputValue st)) && canSendMessage st /\
  (accepted (handleKeyPress key shiftKey env st) = false ->
   handleKeyPress key shiftKey env st = Rejected st).
Proof.
  unfold handleKeyPress, handleSendMessage. rewrite truthy_trim, negb_involutive.
  destruct (key =? "Enter"), shiftKey, (blank (inputValue st)), (canSendMessage st);
    simpl; try (split; [reflexivity | reflexivity || discriminate]);
    destruct (wsConnected env), (wsSendOk env); simpl; split;
    reflexivity || discriminate.
Qed.

Lemma keypress_sends_iff_witness :
  handleKeyPress "Enter" true envWs (setInputValue "hi" initialChat)
  = Rejected (setInputValue "hi" initialChat).
Proof.
  apply (keypress_sends_iff "Enter" true envWs (setInputValue "hi" initialChat)).
  reflexivity.
Defined.

(** ** Chunks on the socket *)

Lemma ws_step_text (f : WsFrame) (st : ChatState) (cid : string) (m : Message) :
  endsStream f = false ->
  activeId st = Some cid ->
  findMessage cid (messages st) = Some m ->
  activeId (handleWebSocketMessage f st) = Some cid /\
  exists m',
    findMessage cid (messages (handleWebSocketMessage f st)) = Some m' /\
    or_empty (content m') = or_empty (content m) +:+ chunkText f /\
    isError m' = isError m.
Proof.
  intros Hf Ha Hm. destruct f; try discriminate; simpl;
    try (split; [exact Ha|]; exists m; rewrite append_empty_r; auto).
  rewrite Ha. split; [exact Ha|]. simpl.
  rewrite findMessage_updateStreaming by reflexivity. rewrite Hm. simpl.
  eexists. split; [reflexivity|]. split; reflexivity.
Qed.

(** X1: On an active socket stream, after any run of frames that do not end the
    stream, the text of the assistant message is the text it had before
    followed by the payloads of the run's chunks in arrival order; frames
    that are not chunks add nothing, and the stream stays active. *)
Theorem chunks_accumulate (fs : list WsFrame) (st : ChatState) (cid : string)
    (m : Message) :
  activeId st = Some cid ->
  findMessage cid (messages st) = Some m ->
  forallb (fun f => negb (endsStream f)) fs = true ->
  activeId (wsRun fs st) = Some cid /\
  exists m',
    findMessage cid (messages (wsRun fs st)) = Some m' /\
    or_empty (content m')
    = or_empty (content m) +:+ bodyText (map chunkText fs).
Proof.
  revert st m. induction fs as [|f fs IH]; intros st m Ha Hm Hfs; simpl.
  - split; [exact Ha|]. exists m. rewrite append_empty_r. auto.
  - simpl in Hfs. apply andb_true_iff in Hfs as [Hf Hfs].
    apply negb_true_iff in Hf.
    destruct (ws_step_text f st cid m Hf Ha Hm) as (Ha' & m1 & Hm1 & Hc1 & _).
    destruct (IH _ m1 Ha' Hm1 Hfs) as (Ha2 & m2 & Hm2 & Hc2).
    split; [exact Ha2|]. exists m2. split; [exact Hm2|].
    rewrite Hc2, Hc1. apply append_assoc.
Qed.

Lemma chunks_accumulate_witness :
  exists m',
    findMessage "streaming-1700000000002"
      (messages (wsRun [WsStreamStart; WsStreamChunk "Hel"; WsProgress; WsMalformed;
                        WsStreamChunk "lo "; WsUnknown; WsStreamChunk "world"] wsTurn))
    = Some m' /\
    or_empty (content m') = "Hello world".
Proof.
  destruct (chunks_accumulate
              [WsStreamStart; WsStreamChunk "Hel"; WsProgress; WsMalformed;
               WsStreamChunk "lo "; WsUnknown; WsStreamChunk "world"]
              wsTurn "streaming-1700000000002"
              (mkMessage "streaming-1700000000002" assistant (Some "") true true false)
              eq_refl eq_refl eq_refl) as (_ & m' & H1 & H2).
  exists m'. split; [exact H1 | exact H2].
Defined.

(** ** What frames leave alone *)

Lemma updateStreaming_fmap {B : Type} (g : Message -> B) (cid : string)
    (f : Message -> Message) (l : list Message) :
  (forall m, g (f m) = g m) ->
  map g (updateStreaming cid f l) = map g l.
Proof.
  intros Hg. unfold updateStreaming.
  destruct (findIndex _ l) as [i|]; [|reflexivity].
  destruct (l !! i) as [m|] eqn:Hm; [|reflexivity].
  change (g <$> <[i:=f m]> l = g <$> l).
  rewrite list_fmap_insert. apply list_insert_id.
  rewrite list_lookup_fmap, Hm. simpl. rewrite Hg. reflexivity.
Qed.

Lemma deliver_shape (s : SseLoop) (f : Frame) :
  map id (messages (chat (deliver s f))) = map id (messages (chat s)) /\
  map type (messages (chat (deliver s f))) = map type (messages (chat s)) /\
  inputValue (chat (deliver s f)) = inputValue (chat s) /\
  canSendMessage (chat (deliver s f)) = canSendMessage (chat s) /\
  (streamingMessageIdRef (chat (deliver s f)) = streamingMessageIdRef (chat s) \/
   streamingMessageIdRef (chat (deliver s f)) = None).
Proof.
  destruct f as [w|line]; simpl.
  - destruct w; simpl; try (repeat split; auto);
      destruct (activeId (chat s)); simpl; auto;
      apply updateStreaming_fmap; reflexivity.
  - destruct line as [| |[r|]]; simpl; try (repeat split; auto).
    all: destruct (truthy r); simpl; auto.
    all: unfold handleStreamingResponse; destruct (activeId (chat s)); simpl; auto.
    all: apply updateStreaming_fmap; reflexivity.
Qed.

(** X2: No run of frames of either transport adds, removes or reorders
    messages, changes a message's id or role, touches the input text or the
    gate, or points the stream reference at a message: the reference is what
    it was or has been cleared. *)
Theorem frames_keep_shape (fs : list Frame) (s : SseLoop) :
  map id (messages (chat (deliverAll fs s))) = map id (messages (chat s)) /\
  map type (messages (chat (deliverAll fs s))) = map type (messages (chat s)) /\
  length (messages (chat (deliverAll fs s))) = length (messages (chat s)) /\
  inputValue (chat (deliverAll fs s)) = inputValue (chat s) /\
  canSendMessage (chat (deliverAll fs s)) = canSendMessage (chat s) /\
  (streamingMessageIdRef (chat (deliverAll fs s)) = streamingMessageIdRef (chat s) \/
   streamingMessageIdRef (chat (deliverAll fs s)) = None).
Proof.
  revert s. induction fs as [|f fs IH]; intros s; simpl.
  - repeat split; auto.
  - destruct (IH (deliver s f)) as (H1 & H2 & H3 & H4 & H5 & H6).
    destruct (deliver_shape s f) as (G1 & G2 & G4 & G5 & G6).
    fold (deliverAll fs (deliver s f)).
    rewrite H1, H2, H3, H4, H5, G1, G2, G4, G5, deliver_length.
    repeat split. destruct H6 as [H6|H6]; [|right; exact H6].
    rewrite H6. exact G6.
Qed.

(** ** The history of any accepted turn *)

Lemma slice_last_length {A : Type} (n : nat) (l : list A) :
  length (slice_last n l) = Nat.min n (length l).
Proof. unfold slice_last. rewrite length_drop. lia. Qed.

Lemma slice_last_short {A : Type} (n : nat) (l : list A) :
  length l <= n -> slice_last n l = l.
Proof.
  intros H. unfold slice_last. replace (length l - n) with 0 by lia. reflexivity.
Qed.

Lemma slice_last_snoc_last {A : Type} (n : nat) (l : list A) (x : A) :
  0 < n -> last (slice_last n (l ++ [x])%list) = Some x.
Proof.
  intros Hn. unfold slice_last. rewrite length_app. simpl.
  rewrite drop_app_le by lia. apply last_snoc.
Qed.

Lemma outboundHistory_eq (env : TurnEnv) (st : ChatState) (h : list HistoryEntry) :
  outboundHistory (handleSendMessage env st) = Some h ->
  h = trimmedChatHistory (messages st) (userMessageOf env st).
Proof.
  unfold handleSendMessage.
  destruct (negb (truthy (trim (inputValue st))) || negb (canSendMessage st));
    [discriminate|].
  destruct (wsConnected env), (wsSendOk env); simpl;
    intros H; try discriminate; injection H as <-; reflexivity.
Qed.

(** X3: Whatever the conversation, the history an accepted turn sends out has at
    most 50 entries, ends with the message being sent (role "user", the
    trimmed input), and is the tail of the list made of the messages that
    are neither loading, streaming nor errors, in their order, followed by
    that message.  With fewer than 50 such messages nothing is cut off. *)
Theorem history_shape (env : TurnEnv) (st : ChatState) (h : list HistoryEntry) :
  outboundHistory (handleSendMessage env st) = Some h ->
  length h <= 50 /\
  last h = Some (mkEntry "user" (Some (trim (inputValue st)))) /\
  (exists older,
     (map toEntry (List.filter isCompleted (messages st))
      ++ [mkEntry "user" (Some (trim (inputValue st)))])%list
     = (older ++ h)%list) /\
  (length (List.filter isCompleted (messages st)) < 50 ->
   h = (map toEntry (List.filter isCompleted (messages st))
        ++ [mkEntry "user" (Some (trim (inputValue st)))])%list).
Proof.
  intros H. apply outboundHistory_eq in H. subst h.
  unfold trimmedChatHistory, maxHistoryLength.
  rewrite (chatHistory_snoc (messages st) (userMessageOf env st) eq_refl).
  change (toEntry (userMessageOf env st))
    with (mkEntry "user" (Some (trim (inputValue st)))).
  split; [rewrite slice_last_length; lia|].
  split; [apply slice_last_snoc_last; lia|]. split.
  - eexists. unfold slice_last. symmetry. apply take_drop.
  - intros Hlt. apply slice_last_short. rewrite length_app, length_map. simpl. lia.
Qed.

Lemma history_shape_witness :
  length (trimmedChatHistory (messages longChat) (userMessageOf envWs longChat)) <= 50 /\
  last (trimmedChatHistory (messages longChat) (userMessageOf envWs longChat))
  = Some (mkEntry "user" (Some "next question")).
Proof.
  destruct (history_shape envWs longChat
              (trimmedChatHistory (messages longChat) (userMessageOf envWs longChat))
              eq_refl) as (H1 & H2 & _).
  split; [exact H1 | exact H2].
Defined.

(** ** A whole turn on either transport *)

Lemma updateStreaming_cons (cid : string) (f : Message -> Message) (x : Message)
    (l : list Message) :
  updateStreaming cid f (x :: l)
  = if id x =? cid then f x :: l else x :: updateStreaming cid f l.
Proof.
  unfold updateStreaming. simpl. destruct (id x =? cid); [reflexivity|].
  destruct (findIndex _ l) as [i|]; simpl; [|reflexivity].
  destruct (l !! i); reflexivity.
Qed.

Lemma updateStreaming_tail (sid : string) (f : Message -> Message)
    (l : list Message) (u m : Message) :
  freshId sid l = true -> (id u =? sid) = false -> (id m =? sid) = true ->
  updateStreaming sid f (l ++ [u; m])%list = (l ++ [u; f m])%list.
Proof.
  intros Hl Hu Hm. induction l as [|x l IH]; simpl.
  - rewrite updateStreaming_cons, Hu, updateStreaming_cons, Hm. reflexivity.
  - simpl in Hl. apply andb_true_iff in Hl as [Hx Hl].
    apply negb_true_iff in Hx. rewrite updateStreaming_cons, Hx, (IH Hl).
    reflexivity.
Qed.

Lemma truthy_streaming (x : string) : truthy ("streaming-" +:+ x) = true.
Proof. reflexivity. Qed.

Lemma user_is_not_streaming (x y : string) :
  ("user-" +:+ x =? "streaming-" +:+ y) = false.
Proof. reflexivity. Qed.

(** The state right behind an accepted send. *)
Lemma send_state (env : TurnEnv) (st : ChatState) :
  blank (inputValue st) = false -> canSendMessage st = true ->
  resultState (handleSendMessage env st)
  = mkChat (messages st ++ [userMessageOf env st; placeholderOf env])%list
           "" false (Some (streamIdOf env)).
Proof.
  intros Hb Hg. unfold handleSendMessage.
  rewrite truthy_trim, Hb, Hg. simpl.
  destruct (wsConnected env), (wsSendOk env); reflexivity.
Qed.

Lemma ws_frame_tail (f : WsFrame) (sid : string) (l : list Message) (u m : Message)
    (iv : string) (g : bool) :
  endsStream f = false -> truthy sid = true ->
  freshId sid l = true -> (id u =? sid) = false -> (id m =? sid) = true ->
  exists m',
    handleWebSocketMessage f (mkChat (l ++ [u; m])%list iv g (Some sid))
    = mkChat (l ++ [u; m'])%list iv g (Some sid) /\
    id m' = id m /\ type m' = type m /\ isError m' = isError m.
Proof.
  intros Hf Ht Hl Hu Hm. destruct f; try discriminate; simpl;
    try (exists m; repeat split; reflexivity).
  unfold activeId. simpl. rewrite Ht. unfold setMessages. simpl.
  rewrite (updateStreaming_tail sid _ l u m Hl Hu Hm).
  eexists. split; [reflexivity|]. repeat split.
Qed.

Lemma ws_run_tail (fs : list WsFrame) (sid : string) (l : list Message) (u m : Message)
    (iv : string) (g : bool) :
  forallb (fun f => negb (endsStream f)) fs = true -> truthy sid = true ->
  freshId sid l = true -> (id u =? sid) = false -> (id m =? sid) = true ->
  exists m',
    wsRun fs (mkChat (l ++ [u; m])%list iv g (Some sid))
    = mkChat (l ++ [u; m'])%list iv g (Some sid) /\
    id m' = id m /\ type m' = type m /\ isError m' = isError m.
Proof.
  unfold wsRun.
  revert m. induction fs as [|f fs IH]; intros m Hfs Ht Hl Hu Hm; simpl.
  - exists m. repeat split; reflexivity.
  - simpl in Hfs. apply andb_true_iff in Hfs as [Hf Hfs].
    apply negb_true_iff in Hf.
    destruct (ws_frame_tail f sid l u m iv g Hf Ht Hl Hu Hm) as (m1 & E1 & I1 & T1 & R1).
    rewrite E1.
    destruct (IH m1 Hfs Ht Hl Hu) as (m2 & E2 & I2 & T2 & R2); [rewrite I1; exact Hm|].
    exists m2. rewrite E2. repeat split; congruence.
Qed.

(** ** Resetting *)

(** [resetChat] brings back the state the hook mounts with, whatever was
    going on, and no frame of an earlier stream that arrives afterwards
    changes it. *)
Lemma reset_is_final (st : ChatState) (fs : list Frame) (seen : string) :
  resetChat st = initialChat /\
  chat (deliverAll fs (mkLoop seen (resetChat st))) = initialChat /\
  handleStreamingComplete seen (resetChat st) = initialChat.
Proof.
  split; [reflexivity|]. split; [|reflexivity].
  rewrite deliverAll_idle; reflexivity.
Qed.

(** ** Pieces of a text *)

Lemma append_cons (c : ascii) (a b : string) : String c a +:+ b = String c (a +:+ b).
Proof. reflexivity. Qed.

Lemma splitNl_nonempty (s : string) : splitNl s <> [].
Proof.
  destruct s as [|c s]; simpl; [discriminate|].
  destruct (Ascii.eqb c "010"); [discriminate|].
  destruct (splitNl s); discriminate.
Qed.

Lemma hasNl_cons (c : ascii) (s : string) :
  hasNl (String c s) = Ascii.eqb "010" c || hasNl s.
Proof. reflexivity. Qed.

Lemma hasNl_app (a b : string) : hasNl (a +:+ b) = hasNl a || hasNl b.
Proof.
  induction a as [|c a IH]; [reflexivity|].
  rewrite append_cons, !hasNl_cons, IH. apply orb_assoc.
Qed.

Lemma splitNl_single (s : string) : hasNl s = false -> splitNl s = [s].
Proof.
  induction s as [|c s IH]; [reflexivity|]. rewrite hasNl_cons.
  intros H. apply orb_false_iff in H as [Hc Hs]. simpl.
  rewrite Ascii.eqb_sym, Hc, (IH Hs). reflexivity.
Qed.

Lemma splitNl_pieces (s : string) : Forall (fun seg => hasNl seg = false) (splitNl s).
Proof.
  induction s as [|c s IH]; simpl.
  - constructor; [reflexivity | constructor].
  - destruct (Ascii.eqb c "010") eqn:Hc.
    + constructor; [reflexivity | exact IH].
    + destruct (splitNl s) as [|seg rest]; simpl.
      * constructor; [|constructor]. rewrite hasNl_cons, Ascii.eqb_sym, Hc. reflexivity.
      * inversion IH as [|? ? Hseg Hrest]; subst. constructor; [|exact Hrest].
        rewrite hasNl_cons, Ascii.eqb_sym, Hc. exact Hseg.
Qed.

(** ** The height of the input box *)

Lemma heightForLines_mono (a b : Z) :
  (a <= b)%Z -> (heightForLines a <= heightForLines b)%Z.
Proof.
  intros H. unfold heightForLines.
  destruct (Z.leb_spec a 3), (Z.leb_spec a 10), (Z.leb_spec b 3), (Z.leb_spec b 10); lia.
Qed.

(** X9: The height given to the input box is never below 24 nor above 400, it
    is 24 for input that is white space only, it never goes down when the
    estimated number of lines goes up, and it is 400 exactly from 27
    estimated lines on. *)
Theorem input_height_bounds (value : string) :
  (24 <= adjustInputHeight value <= 400)%Z /\
  (blank value = true -> adjustInputHeight value = 24%Z) /\
  (forall a b : Z, (a <= b)%Z -> (heightForLines a <= heightForLines b)%Z) /\
  (forall n : Z, heightForLines n = 400%Z <-> (27 <= n)%Z).
Proof.
  split; [|split; [|split]].
  - unfold adjustInputHeight. destruct (negb (truthy (trim value))); [lia|].
    unfold heightForLines.
    destruct (Z.leb_spec (estimatedLinesOf value) 3),
             (Z.leb_spec (estimatedLinesOf value) 10); lia.
  - intros Hb. unfold adjustInputHeight. rewrite truthy_trim, Hb. reflexivity.
  - exact heightForLines_mono.
  - intros n. unfold heightForLines.
    destruct (Z.leb_spec n 3), (Z.leb_spec n 10); lia.
Qed.

(** ** Conversation titles *)

Lemma trimStart_length (s : string) : String.length (trimStart s) <= String.length s.
Proof.
  induction s as [|c s IH]; simpl; [lia|]. destruct (isSpace c); simpl; lia.
Qed.

Lemma trimEnd_length (s : string) : String.length (trimEnd s) <= String.length s.
Proof.
  induction s as [|c s IH]; simpl; [lia|].
  destruct (isSpace c && (trimEnd s =? "")); simpl; lia.
Qed.

Lemma trim_length (s : string) : String.length (trim s) <= String.length s.
Proof.
  unfold trim. pose proof (trimEnd_length (trimStart s)). pose proof (trimStart_length s). lia.
Qed.

Lemma trimStart_no_nl (s : string) : hasNl s = false -> hasNl (trimStart s) = false.
Proof.
  induction s as [|c s IH]; [reflexivity|]. rewrite hasNl_cons. intros H.
  apply orb_false_iff in H as [Hc Hs]. simpl. destruct (isSpace c); [apply IH, Hs|].
  rewrite hasNl_cons, Hc. exact Hs.
Qed.

Lemma trimEnd_no_nl (s : string) : hasNl s = false -> hasNl (trimEnd s) = false.
Proof.
  induction s as [|c s IH]; [reflexivity|]. rewrite hasNl_cons. intros H.
  apply orb_false_iff in H as [Hc Hs]. simpl.
  destruct (isSpace c && (trimEnd s =? "")); [reflexivity|].
  rewrite hasNl_cons, Hc. apply IH, Hs.
Qed.

Lemma substring0_length (n : nat) (s : string) :
  String.length (String.substring 0 n s) <= n.
Proof.
  revert s. induction n as [|n IH]; intros [|c s]; simpl; try lia.
  pose proof (IH s). lia.
Qed.

Lemma substring0_no_nl (n : nat) (s : string) :
  hasNl s = false -> hasNl (String.substring 0 n s) = false.
Proof.
  revert s. induction n as [|n IH]; intros [|c s]; simpl; try reflexivity.
  rewrite !hasNl_cons. intros H. apply orb_false_iff in H as [Hc Hs].
  rewrite Hc. apply IH, Hs.
Qed.

Lemma firstLine_no_nl (s : string) : hasNl (or_empty (head (splitNl s))) = false.
Proof.
  pose proof (splitNl_pieces s) as H.
  destruct (splitNl s) as [|seg rest]; [reflexivity|].
  inversion H; subst. assumption.
Qed.

(** X10: A generated title is never empty, holds no line feed, and is at most 50
    characters long (a character of the model standing for one unit of
    [length]).  When the first line of the input has at most 50 characters
    and is not white space only, the title is that line, trimmed. *)
Theorem title_is_short_single_line (userInput : string) :
  generateConversationTitle userInput <> "" /\
  hasNl (generateConversationTitle userInput) = false /\
  String.length (generateConversationTitle userInput) <= 50 /\
  (String.length (or_empty (head (splitNl userInput))) <= 50 ->
   blank (or_empty (head (splitNl userInput))) = false ->
   generateConversationTitle userInput = trim (or_empty (head (splitNl userInput)))).
Proof.
  unfold generateConversationTitle.
  set (firstLine := or_empty (head (splitNl userInput))).
  assert (Hnl : hasNl firstLine = false) by apply firstLine_no_nl.
  set (title := if (50 <? String.length firstLine)%nat
                then String.substring 0 47 firstLine +:+ "..." else firstLine).
  assert (Htl : String.length title <= 50).
  { subst title. destruct (Nat.ltb_spec 50 (String.length firstLine)); [|lia].
    rewrite length_append. pose proof (substring0_length 47 firstLine). simpl. lia. }
  assert (Htn : hasNl title = false).
  { subst title. destruct (50 <? String.length firstLine)%nat; [|exact Hnl].
    rewrite hasNl_app, (substring0_no_nl 47 _ Hnl). reflexivity. }
  split; [|split; [|split]].
  - destruct (truthy (trim title)) eqn:Ht; [|discriminate].
    intros E. rewrite E in Ht. discriminate.
  - destruct (truthy (trim title)); [|reflexivity].
    unfold trim. apply trimEnd_no_nl, trimStart_no_nl, Htn.
  - destruct (truthy (trim title)); [|simpl; lia].
    pose proof (trim_length title). lia.
  - intros Hlen Hb. subst title.
    destruct (Nat.ltb_spec 50 (String.length firstLine)); [lia|].
    rewrite truthy_trim, Hb. reflexivity.
Qed.

Lemma title_is_short_single_line_witness :
  generateConversationTitle ("  What moved the markets today?  " +:+ nl +:+ "second line")
  = "What moved the markets today?".
Proof.
  apply (title_is_short_single_line
           ("  What moved the markets today?  " +:+ nl +:+ "second line")).
  - vm_compute. lia.
  - reflexivity.
Defined.

(** ** Prompt cards *)

Lemma insertByStep_perm (c : PromptCard) (l : list PromptCard) :
  Permutation (insertByStep c l) (c :: l).
Proof.
  induction l as [|d l IH]; simpl; [reflexivity|].
  destruct (stepOrder d <? stepOrder c)%nat; [|reflexivity].
  rewrite IH. apply perm_swap.
Qed.

Lemma sortByStep_perm (l : list PromptCard) : Permutation (sortByStep l) l.
Proof.
  induction l as [|c l IH]; simpl; [reflexivity|].
  rewrite insertByStep_perm, IH. reflexivity.
Qed.

Lemma insertByStep_sorted (c : PromptCard) (l : list PromptCard) :
  StronglySorted (fun a b => stepOrder a <= stepOrder b) l ->
  StronglySorted (fun a b => stepOrder a <= stepOrder b) (insertByStep c l).
Proof.
  induction l as [|d l IH]; intros Hs; simpl.
  - constructor; constructor.
  - inversion Hs as [|? ? Hl Hd]; subst.
    destruct (Nat.ltb_spec (stepOrder d) (stepOrder c)).
    + constructor; [apply IH, Hl|].
      rewrite List.Forall_forall in *. intros x Hx.
      apply (Permutation_in _ (insertByStep_perm c l)) in Hx as [<-|Hx]; [lia|].
      apply Hd, Hx.
    + constructor; [exact Hs|]. constructor; [exact H|].
      rewrite List.Forall_forall in *. intros x Hx. specialize (Hd x Hx). lia.
Qed.

Lemma sortByStep_sorted (l : list PromptCard) :
  StronglySorted (fun a b => stepOrder a <= stepOrder b) (sortByStep l).
Proof.
  induction l as [|c l IH]; simpl; [constructor | apply insertByStep_sorted, IH].
Qed.

Lemma insertByStep_withStep (k : nat) (c : PromptCard) (l : list PromptCard) :
  withStep k (insertByStep c l) = withStep k (c :: l).
Proof.
  unfold withStep. induction l as [|d l IH]; [reflexivity|]. simpl.
  destruct (Nat.ltb_spec (stepOrder d) (stepOrder c)) as [Hlt|Hge]; [|reflexivity].
  simpl. rewrite IH. simpl.
  destruct (Nat.eqb_spec (stepOrder c) k) as [Hc|Hc]; [|reflexivity].
  destruct (Nat.eqb_spec (stepOrder d) k) as [Hd|Hd]; [lia | reflexivity].
Qed.

Lemma sortByStep_withStep (k : nat) (l : list PromptCard) :
  withStep k (sortByStep l) = withStep k l.
Proof.
  induction l as [|c l IH]; [reflexivity|]. simpl.
  rewrite insertByStep_withStep. unfold withStep in *. simpl. rewrite IH. reflexivity.
Qed.

(** X11: The cards sent with a turn are in non-decreasing [stepOrder]; cards with
    the same [stepOrder] keep the order they had in the argument; they are
    exactly the cards that are not switched off ([isActive] and [enabled]
    both other than [false]) and whose text is not white space only, each
    once, and none of them has a blank text. *)
Theorem active_cards_sorted_and_filtered (promptCards : list RawCard) :
  StronglySorted (fun a b => stepOrder a <= stepOrder b) (activeCards promptCards) /\
  (forall k, withStep k (activeCards promptCards) = withStep k (eligibleCards promptCards)) /\
  Permutation (activeCards promptCards) (eligibleCards promptCards) /\
  (forall c, In c (activeCards promptCards) <->
     exists raw, In raw promptCards /\ c = toPromptCard raw /\
       cardIsActive raw <> Some false /\ cardEnabled raw <> Some false /\
       blank (prompt_text c) = false).
Proof.
  assert (Hp : Permutation (activeCards promptCards) (eligibleCards promptCards))
    by apply sortByStep_perm.
  split; [apply sortByStep_sorted|]. split; [intros k; apply sortByStep_withStep|].
  split; [exact Hp|]. intros c. split.
  - intros Hc. apply (Permutation_in _ Hp) in Hc. unfold eligibleCards in Hc.
    apply List.filter_In in Hc as [Hc Ht]. apply List.in_map_iff in Hc as (raw & <- & Hraw).
    apply List.filter_In in Hraw as [Hraw Hflags].
    apply andb_true_iff in Hflags as [Ha He].
    exists raw. split; [exact Hraw|]. split; [reflexivity|].
    rewrite truthy_trim in Ht. apply negb_true_iff in Ht.
    repeat split; try exact Ht.
    + intros E. rewrite E in Ha. discriminate.
    + intros E. rewrite E in He. discriminate.
  - intros (raw & Hraw & -> & Ha & He & Hb).
    apply (Permutation_in _ (Permutation_sym Hp)). unfold eligibleCards.
    apply List.filter_In. split.
    + apply List.in_map. apply List.filter_In. split; [exact Hraw|].
      apply andb_true_iff. split.
      * destruct (cardIsActive raw) as [[|]|]; try reflexivity. congruence.
      * destruct (cardEnabled raw) as [[|]|]; try reflexivity. congruence.
    + rewrite truthy_trim, Hb. reflexivity.
Qed.

(** Five cards, one switched off and one blank: three are sent, by step,
    the two cards of step 1 in the order they were given. *)
Lemma active_cards_example :
  map title (activeCards sampleCards) = ["Untitled"; "Second first"; "Third"] /\
  map promptId (activeCards sampleCards) = [Some "a"; Some "d"; Some "c"].
Proof. split; reflexivity. Qed.

(** ** Steps of the thinking process *)

Lemma showNat_inj (a b : nat) : showNat a = showNat b -> a = b.
Proof.
  unfold showNat. intros H. apply Unsigned.to_uint_inj.
  pose proof (NilEmpty.usu (Nat.to_uint a)) as Ha.
  pose proof (NilEmpty.usu (Nat.to_uint b)) as Hb.
  rewrite H in Ha. congruence.
Qed.

Lemma stepName_inj (a b : nat) : "step_" +:+ showNat a = "step_" +:+ showNat b -> a = b.
Proof. intros H. apply showNat_inj. exact (String.app_inj "step_" _ _ H). Qed.

Lemma lookup_map {A B : Type} (f : A -> B) (l : list A) (k : nat) (x : A) :
  l !! k = Some x -> map f l !! k = Some (f x).
Proof.
  intros H. change (map f l) with (f <$> l). rewrite list_lookup_fmap, H. reflexivity.
Qed.

Lemma map_keeps_ids (f : Step -> Step) (l : list Step) :
  (forall s, stepId (f s) = stepId s) -> map stepId (map f l) = map stepId l.
Proof.
  intros H. rewrite map_map. apply map_ext. exact H.
Qed.

Lemma applyOp_ids (th : Thinking) (op : ThinkingOp) :
  match op with
  | OpStart | OpClear => steps (applyOp th op) = []
  | OpAdd cfg =>
      map stepId (steps (applyOp th op))
      = (map stepId (steps th) ++ ["step_" +:+ showNat (S (stepIdCounter th))])%list /\
      stepIdCounter (applyOp th op) = S (stepIdCounter th)
  | _ =>
      map stepId (steps (applyOp th op)) = map stepId (steps th) /\
      stepIdCounter (applyOp th op) = stepIdCounter th
  end.
Proof.
  destruct op; simpl; try reflexivity.
  - split; [|reflexivity]. apply map_keeps_ids. intros s.
    destruct (stepStatus s =? "active"); reflexivity.
  - split; [|reflexivity]. rewrite map_app. reflexivity.
  - split; [|reflexivity]. apply map_keeps_ids. intros s.
    destruct (stepId s =? sid); reflexivity.
  - split; [|reflexivity]. apply map_keeps_ids. intros s.
    destruct (stepId s =? sid); reflexivity.
  - split; [|reflexivity]. apply map_keeps_ids. intros s.
    destruct (stepId s =? sid); reflexivity.
  - split; [|reflexivity]. apply map_keeps_ids. intros s.
    destruct (stepId s =? sid); reflexivity.
Qed.

Lemma applyOp_numbered (th : Thinking) (op : ThinkingOp) :
  numbered th -> numbered (applyOp th op).
Proof.
  intros [Hnd Hall]. pose proof (applyOp_ids th op) as H. unfold numbered.
  destruct op; try (rewrite H; simpl; split; constructor);
    try (destruct H as [-> ->]; split; assumption).
  destruct H as [-> ->]. split.
  - apply NoDup_app. split; [exact Hnd|]. split; [|apply NoDup_singleton].
    intros i Hi Hin. apply list_elem_of_singleton in Hin. subst i.
    rewrite Forall_forall in Hall. destruct (Hall _ Hi) as (k & Hk & E).
    apply stepName_inj in E. lia.
  - apply Forall_app. split.
    + eapply Forall_impl; [exact Hall|]. intros i (k & Hk & E). exists k. split; [lia | exact E].
    + constructor; [|constructor]. exists (S (stepIdCounter th)). split; [lia | reflexivity].
Qed.

Lemma runOps_numbered (ops : list ThinkingOp) (th : Thinking) :
  numbered th -> numbered (runOps ops th).
Proof.
  unfold runOps. revert th. induction ops as [|op ops IH]; intros th H; simpl; [exact H|].
  apply IH, applyOp_numbered, H.
Qed.

(** X13: Whatever calls are made on the hook from its first render on, no two
    steps of the list share an id, and the id the next [addStep] returns is
    not carried by any step already there. *)
Theorem step_ids_unique (ops : list ThinkingOp) (cfg : StepConfig) :
  NoDup (map stepId (steps (runOps ops initialThinking))) /\
  (snd (addStep cfg (runOps ops initialThinking))
     ∉ map stepId (steps (runOps ops initialThinking))) /\
  NoDup (map stepId (steps (fst (addStep cfg (runOps ops initialThinking))))).
Proof.
  assert (H0 : numbered initialThinking) by (split; constructor).
  pose proof (runOps_numbered ops initialThinking H0) as H.
  pose proof (applyOp_numbered _ (OpAdd cfg) H) as [Hadd _].
  split; [exact (proj1 H)|]. split; [|exact Hadd].
  destruct H as [_ Hall]. simpl. intros Hin.
  rewrite Forall_forall in Hall. destruct (Hall _ Hin) as (k & Hk & E).
  apply stepName_inj in E. lia.
Qed.

Lemma countStatus_cons (st : string) (s : Step) (l : list Step) :
  countStatus st (s :: l)
  = (if stepStatus s =? st then 1 else 0) + countStatus st l.
Proof. unfold countStatus. simpl. destruct (stepStatus s =? st); reflexivity. Qed.

(** X14: [finishThinking] leaves no step active: every active step becomes
    completed, every other step stays as it is, ids and order are kept, so
    the number of completed steps grows by the number that were active.
    Doing it twice is the same as doing it once. *)
Theorem finish_completes_active (th : Thinking) :
  countStatus "active" (steps (finishThinking th)) = 0 /\
  getCompletedStepsCount (finishThinking th)
  = getCompletedStepsCount th + countStatus "active" (steps th) /\
  map stepId (steps (finishThinking th)) = map stepId (steps th) /\
  (forall k s, steps th !! k = Some s -> stepStatus s <> "active" ->
     steps (finishThinking th) !! k = Some s) /\
  isThinking (finishThinking th) = false /\
  finishThinking (finishThinking th) = finishThinking th.
Proof.
  unfold getCompletedStepsCount. fold (countStatus "completed" (steps (finishThinking th))).
  fold (countStatus "completed" (steps th)).
  unfold finishThinking. simpl. destruct th as [l cs it n]. simpl.
  split; [|split; [|split; [|split; [|split]]]].
  - induction l as [|s l IH]; [reflexivity|]. simpl map. rewrite countStatus_cons, IH.
    destruct (stepStatus s =? "active") eqn:E; simpl; [reflexivity | rewrite E; reflexivity].
  - induction l as [|s l IH]; [reflexivity|]. simpl map.
    rewrite !countStatus_cons, IH.
    destruct (stepStatus s =? "active") eqn:E; simpl.
    + apply String.eqb_eq in E. rewrite E. simpl. lia.
    + lia.
  - apply map_keeps_ids. intros s. destruct (stepStatus s =? "active"); reflexivity.
  - intros k s Hk Hs. rewrite (lookup_map _ l k s Hk).
    destruct (stepStatus s =? "active") eqn:E; [|reflexivity].
    apply String.eqb_eq in E. contradiction.
  - reflexivity.
  - f_equal. rewrite map_map. apply map_ext. intros s.
    destruct (stepStatus s =? "active") eqn:E; simpl; [reflexivity | rewrite E; reflexivity].
Qed.

(** X15: [updateProgress] stores a progress between 0 and 100 whatever number it
    is given, on every step that carries the id; it keeps those steps'
    status, type and title, and leaves every other step as it is.  When no
    step carries the id nothing changes, and the same goes for
    [completeStep], [failStep] and [updateStep]. *)
Theorem progress_is_clamped (sid : string) (progress : Z) (message : jsstring)
    (th : Thinking) (k : nat) (s : Step) :
  steps th !! k = Some s ->
  (exists s',
     steps (updateProgress sid progress message th) !! k = Some s' /\
     if stepId s =? sid
     then (exists p, stepProgress s' = Some p /\ (0 <= p <= 100)%Z /\
             (p = progress <-> (0 <= progress <= 100)%Z)) /\
          stepId s' = stepId s /\ stepStatus s' = stepStatus s /\
          stepType s' = stepType s /\ stepTitle s' = stepTitle s
     else s' = s) /\
  (forallb (fun x => negb (stepId x =? sid)) (steps th) = true ->
   updateProgress sid progress message th = th /\
   (forall m, completeStep sid m th = th) /\
   (forall m, failStep sid m th = th) /\
   (forall upd, updateStep sid upd th = th)).
Proof.
  intros Hk. split.
  - unfold updateProgress, updateStep, setSteps. simpl.
    rewrite (lookup_map _ (steps th) k s Hk). eexists. split; [reflexivity|].
    destruct (stepId s =? sid); [|reflexivity]. simpl.
    split; [|repeat split]. exists (Z.min 100 (Z.max 0 progress)).
    split; [reflexivity|]. lia.
  - intros Hnone.
    assert (Hmap : forall f : Step -> Step,
              map (fun step => if stepId step =? sid then f step else step) (steps th)
              = steps th).
    { intros f. clear Hk. induction (steps th) as [|x l IH]; [reflexivity|].
      simpl in Hnone. apply andb_true_iff in Hnone as [Hx Hl].
      apply negb_true_iff in Hx. simpl. rewrite Hx, (IH Hl). reflexivity. }
    destruct th as [l cs it n]. simpl in *.
    unfold updateProgress, updateStep, completeStep, failStep, setSteps. simpl.
    split; [rewrite (Hmap (fun step => mergeStep step _)); reflexivity|].
    split; [intros m; rewrite (Hmap (fun step => mkStep _ _ _ _ _ _)); reflexivity|].
    split; [intros m; rewrite (Hmap (fun step => mkStep _ _ _ _ _ _)); reflexivity|].
    intros upd. rewrite (Hmap (fun step => mergeStep step upd)). reflexivity.
Qed.

Lemma progress_is_clamped_witness :
  exists s',
    steps (updateProgress "step_2" 140 None
             (runOps [OpStart;
                      OpAdd (mkConfig (Some "analyzing") (Some "Q") None None None);
                      OpAdd (mkConfig (Some "searching") (Some "S") None None None)]
                     initialThinking)) !! 1 = Some s' /\
    stepProgress s' = Some 100%Z /\ stepDescription s' = "140% 완료".
Proof.
  destruct (progress_is_clamped "step_2" 140 None
              (runOps [OpStart;
                       OpAdd (mkConfig (Some "analyzing") (Some "Q") None None None);
                       OpAdd (mkConfig (Some "searching") (Some "S") None None None)]
                      initialThinking) 1
              (mkStep "step_2" "searching" (Some "S") "처리 중..." "active" None)
              eq_refl) as [(s' & Hs & _) _].
  exists s'. split; [exact Hs|].
  vm_compute in Hs. injection Hs as <-. split; reflexivity.
Defined.

(** ** Which notice an error frame gets *)

Lemma prefix_spec (p s : string) :
  String.prefix p s = true <-> exists b, s = p +:+ b.
Proof.
  revert p. induction s as [|d s IH]; intros [|c p]; simpl.
  - split; [intros _; exists ""; reflexivity | reflexivity].
  - split; [discriminate | intros [b H]; discriminate].
  - split; [intros _; exists (String d s); reflexivity | reflexivity].
  - destruct (ascii_dec c d) as [->|Hcd].
    + rewrite IH. split; intros [b H]; exists b.
      * rewrite append_cons, H. reflexivity.
      * rewrite append_cons in H. congruence.
    + split; [discriminate|]. intros [b H]. rewrite append_cons in H. congruence.
Qed.

Lemma includes_spec (s sub : string) :
  includes s sub = true <-> exists a b, s = a +:+ sub +:+ b.
Proof.
  induction s as [|c s IH].
  - change (includes "" sub) with (String.prefix sub "" || false).
    rewrite orb_false_r, prefix_spec. split.
    + intros [b H]. exists "", b. exact H.
    + intros (a & b & H). destruct a; [exists b; exact H | discriminate].
  - change (includes (String c s) sub)
      with (String.prefix sub (String c s) || includes s sub).
    rewrite orb_true_iff, prefix_spec, IH. split.
    + intros [[b H]|(a & b & H)].
      * exists "", b. exact H.
      * exists (String c a), b. rewrite append_cons, H. reflexivity.
    + intros (a & b & H). destruct a as [|d a].
      * left. exists b. exact H.
      * right. exists a, b. rewrite append_cons in H. congruence.
Qed.

(** X12: The notice of an [error] frame depends only on what its message
    contains.  [includes] is containment as a substring.  A message that
    contains "401" or "Unauthorized" gets the sign-in notice whatever else it
    says; otherwise one that contains "timeout" or "시간 초과" gets the
    timeout notice; otherwise one that contains "rate limit" or "제한" gets
    the rate-limit notice; every other message, and a frame without a
    message, gets the generic notice. *)
Theorem error_notice_by_content (message : jsstring) :
  (forall s sub, includes s sub = true <-> exists a b, s = a +:+ sub +:+ b) /\
  let auth := opt_includes message "401" || opt_includes message "Unauthorized" in
  let timeout := opt_includes message "timeout" || opt_includes message "시간 초과" in
  let rate := opt_includes message "rate limit" || opt_includes message "제한" in
  (errorContent message = errAuth <-> auth = true) /\
  (errorContent message = errTimeout <-> auth = false /\ timeout = true) /\
  (errorContent message = errRateLimit <->
     auth = false /\ timeout = false /\ rate = true) /\
  (errorContent message = errGeneric <->
     auth = false /\ timeout = false /\ rate = false) /\
  errorContent None = errGeneric.
Proof.
  split; [exact includes_spec|]. unfold errorContent.
  destruct (opt_includes message "401" || opt_includes message "Unauthorized");
    destruct (opt_includes message "timeout" || opt_includes message "시간 초과");
    destruct (opt_includes message "rate limit" || opt_includes message "제한");
    simpl; repeat split; try discriminate; try tauto;
    intros H; try (destruct H as (? & ?)); try (destruct H0 as (? & ?));
    try discriminate; try (vm_compute in H; discriminate H).
Qed.

(** ** A turn when the socket is out *)

Lemma send_result (env : TurnEnv) (st : ChatState) :
  blank (inputValue st) = false -> canSendMessage st = true ->
  handleSendMessage env st
  = if wsConnected env
    then if wsSendOk env then SentOverWs (sentState env st) (wsRequestOf env st)
         else FallbackThrew (sentState env st) (Some (wsRequestOf env st))
    else FallbackThrew (sentState env st) None.
Proof.
  intros Hb Hg. unfold handleSendMessage. rewrite truthy_trim, Hb, Hg. simpl.
  destruct (wsConnected env), (wsSendOk env); reflexivity.
Qed.

Lemma filter_placeholder (sid : string) (l : list Message) (u m : Message) :
  freshId sid l = true -> (id u =? sid) = false -> (id m =? sid) = true ->
  List.filter (fun msg => negb (id msg =? sid)) (l ++ [u; m])%list
  = (l ++ [u])%list.
Proof.
  intros Hl Hu Hm. induction l as [|x l IH]; simpl.
  - rewrite Hu, Hm. reflexivity.
  - simpl in Hl. apply andb_true_iff in Hl as [Hx Hl]. rewrite Hx, (IH Hl). reflexivity.
Qed.

Lemma error_is_not_streaming (x y : string) :
  ("error-" +:+ x =? "streaming-" +:+ y) = false.
Proof. reflexivity. Qed.


Lemma catch_after_send (env : TurnEnv) (st : ChatState) (e : ApiError)
    (nowError : string) :
  freshId (streamIdOf env) (messages st) = true ->
  catchBlock e nowError (sentState env st)
  = if shouldRedirect e then sentState env st
    else mkChat (messages st ++ [userMessageOf env st; errorMessageOf e nowError])%list
                "" true None.
Proof.
  intros Hfresh. unfold catchBlock. destruct (shouldRedirect e); [reflexivity|].
  pose proof (filter_placeholder (streamIdOf env) (messages st)
                (userMessageOf env st) (placeholderOf env) Hfresh
                (user_is_not_streaming _ _) (String.eqb_refl _)) as F.
  unfold sentState, setCanSendMessage, setStreamingRef, setMessages.
  cbn [messages inputValue canSendMessage streamingMessageIdRef idIs].
  rewrite F, <- app_assoc. reflexivity.
Qed.





(** X4: A turn from send to end, when no message of the conversation already
    carries the id the placeholder is given.  Over the socket (connected,
    send succeeded), any run of non-terminal frames followed by
    [stream_complete] leaves the old messages, the user message and one
    assistant message with the frame's [fullContent]; the input is empty,
    the reference cleared, and the gate still closed.  With the socket out
    the handler throws and ends in its [catch] block: unless the page is
    redirected, what is left is the old messages, the user message and the
    error message, with the reference cleared and the gate open; on a
    redirect the state is as the send left it. *)
Theorem turn_end_to_end (env : TurnEnv) (st : ChatState) :
  blank (inputValue st) = false ->
  canSendMessage st = true ->
  freshId (streamIdOf env) (messages st) = true ->
  (forall fs fullContent,
     forallb (fun f => negb (endsStream f)) fs = true ->
     wsRun (fs ++ [WsStreamComplete fullContent]) (resultState (handleSendMessage env st))
     = mkChat (messages st ++ [userMessageOf env st; answerOf env fullContent])%list
              "" false None) /\
  (forall e nowError,
     wsConnected env && wsSendOk env = false ->
     handleSendMessageEnd e nowError (handleSendMessage env st)
     = if shouldRedirect e then sentState env st
       else mkChat (messages st ++ [userMessageOf env st; errorMessageOf e nowError])%list
                   "" true None).
Proof.
  intros Hb Hg Hfresh. split.
  - rewrite (send_state env st Hb Hg).
    intros fs fullContent Hfs. unfold wsRun. rewrite fold_left_app. simpl.
    destruct (ws_run_tail fs (streamIdOf env) (messages st) (userMessageOf env st)
                (placeholderOf env) "" false Hfs (truthy_streaming _) Hfresh
                (user_is_not_streaming _ _) (String.eqb_refl _))
      as (m' & E & I & T & R).
    unfold wsRun in E. rewrite E.
    unfold handleWebSocketMessage, activeId. simpl.
    unfold setStreamingRef, setMessages. simpl.
    rewrite (updateStreaming_tail (streamIdOf env) _ (messages st) _ m' Hfresh);
      [|apply user_is_not_streaming | rewrite I; apply String.eqb_refl].
    unfold completeUpdate, answerOf. rewrite I, T, R. reflexivity.
  - intros e nowError Hws. rewrite (send_result env st Hb Hg).
    rewrite <- (catch_after_send env st e nowError Hfresh).
    destruct (wsConnected env), (wsSendOk env); try discriminate; reflexivity.
Qed.

Lemma turn_end_to_end_witness :
  wsRun ([WsStreamStart; WsStreamChunk "Hel"; WsStreamChunk "lo"] ++ [WsStreamComplete (Some "Hello")])
        (resultState (handleSendMessage envWs (setInputValue "hi" initialChat)))
  = mkChat [userMessageOf envWs (setInputValue "hi" initialChat); answerOf envWs (Some "Hello")]
           "" false None /\
  handleSendMessageEnd networkError "1700000000009"
    (handleSendMessage envWsFails (setInputValue "hi" initialChat))
  = mkChat [userMessageOf envWsFails (setInputValue "hi" initialChat);
            errorMessageOf networkError "1700000000009"]
           "" true None.
Proof.
  split.
  - apply (proj1 (turn_end_to_end envWs (setInputValue "hi" initialChat)
                    eq_refl eq_refl eq_refl)). reflexivity.
  - apply (proj2 (turn_end_to_end envWsFails (setInputValue "hi" initialChat)
                    eq_refl eq_refl eq_refl) networkError "1700000000009"). reflexivity.
Defined.
